(** * FFX: the filter-chain builder of [ffx.py]

    A shallow embedding of the chain-assembly part of [ffx.py] (the stage
    builders [build_*], [add_filter] and the part of [main] that computes
    [filter_chain]) together with the properties of the chain it builds.

    The configuration is the object returned by [yaml.safe_load]; it is
    modelled by the type [pyval] of Python values built from [None], booleans,
    integers, floats, strings, lists and dicts.  A Python [str] is modelled by
    a Rocq [string] whose characters are read as the code points 0..255; an
    [int] by a [Z]; a [float] by a binary64 [spec_float].  A dict is the list
    of its items in insertion order.  Python exceptions are modelled by the
    [Raise] results of the [result] monad.  The command line, the loading of
    the file and the call of ffmpeg are not modelled. *)

From Stdlib Require Import ZArith Lia Bool List Permutation.
From Stdlib Require Import Strings.String Strings.Ascii Numbers.DecimalString.
From Stdlib Require Import Floats.SpecFloat.
Import ListNotations.

Open Scope string_scope.
Open Scope Z_scope.

(* ===================================================================== *)
(** ** Strings *)
(* ===================================================================== *)

(** [str(z)] for a Python [int]. *)
Definition Z_to_string (z : Z) : string := NilZero.string_of_int (Z.to_int z).

Fixpoint zeros (n : nat) : string :=
  match n with
  | O => ""
  | S k => String "0" (zeros k)
  end.

(** [s[:n]] and [s[n:]]. *)
Fixpoint take (n : nat) (s : string) : string :=
  match n, s with
  | S k, String c t => String c (take k t)
  | _, _ => ""
  end.

Fixpoint drop (n : nat) (s : string) : string :=
  match n, s with
  | S k, String _ t => drop k t
  | _, _ => s
  end.

(** The characters [str.strip()] removes: [Py_UNICODE_ISSPACE] on the code
    points below 256. *)
Definition is_space (c : ascii) : bool :=
  let n := N_of_ascii c in
  (((9 <=? n) && (n <=? 13)) || ((28 <=? n) && (n <=? 32))
   || (n =? 133) || (n =? 160))%N.

Definition is_comma (c : ascii) : bool := Ascii.eqb c ",".

(** [lstrip_by p s] drops the longest prefix of [s] whose characters satisfy
    [p]; [rstrip_by p s] drops the longest such suffix. *)
Fixpoint lstrip_by (p : ascii -> bool) (s : string) : string :=
  match s with
  | "" => ""
  | String c t => if p c then lstrip_by p t else s
  end.

Fixpoint rstrip_by (p : ascii -> bool) (s : string) : string :=
  match s with
  | "" => ""
  | String c t =>
      match rstrip_by p t with
      | "" => if p c then "" else String c ""
      | t' => String c t'
      end
  end.

(** [s.strip()] *)
Definition strip (s : string) : string := rstrip_by is_space (lstrip_by is_space s).

(** [s.rstrip(",")] *)
Definition rstrip_commas (s : string) : string := rstrip_by is_comma s.

(** [sep.join(l)] for a list of strings. *)
Definition join (sep : string) (l : list string) : string := String.concat sep l.

(** The one-character strings of [s], the items Python iterates over. *)
Fixpoint chars (s : string) : list string :=
  match s with
  | "" => []
  | String c t => String c "" :: chars t
  end.

(* ===================================================================== *)
(** ** Floats: [repr] of an IEEE binary64 value *)
(* ===================================================================== *)

(** A Python [float] is a [spec_float] [m * 2^e] in the binary64 format
    (precision 53, [-1074 <= e]).  [repr] prints the shortest decimal string
    that rounds back to the float, and of those the one closest to it. *)
Module FloatRepr.

Section ShortestDigits.
(** The float is [num/den]; the reals that round to it are those between
    [(num - dl)/den] and [(num + du)/den], bounds included exactly when the
    mantissa is even. *)
Variables (num den dl du : Z) (inclusive : bool).

Definition inside (L H x : Z) : bool :=
  if inclusive then (L <=? x) && (x <=? H) else (L <? x) && (x <? H).

(** The multiple [d * 10^q] of [10^q] closest to the float, if one rounds
    to the float (ties to the even [d]). *)
Definition digits_at (q : Z) : option Z :=
  let s := 10 ^ Z.max 0 (- q) in
  let B := den * 10 ^ Z.max 0 q in
  let A := num * s in
  let L := A - dl * s in
  let H := A + du * s in
  let d0 := A / B in
  let d1 := d0 + 1 in
  let in0 := (0 <? d0) && inside L H (d0 * B) in
  let in1 := inside L H (d1 * B) in
  match in0, in1 with
  | true, true =>
      match 2 * A ?= (2 * d0 + 1) * B with
      | Lt => Some d0
      | Gt => Some d1
      | Eq => Some (if Z.even d0 then d0 else d1)
      end
  | true, false => Some d0
  | false, true => Some d1
  | false, false => None
  end.

(** The largest [q <= q0] with such a multiple: the fewest digits. *)
Fixpoint shortest_from (fuel : nat) (q : Z) : Z * Z :=
  match digits_at q with
  | Some d => (d, q)
  | None =>
      match fuel with
      | O => (num / den, 0)
      | S k => shortest_from k (q - 1)
      end
  end.
End ShortestDigits.

(** The digits [d] and the exponent [q] of [repr]: the float prints as
    [d * 10^q].  The search starts above the decimal exponent of the float
    and ends at the latest at [min e 0], where the float itself is a multiple
    of [10^q]. *)
Definition shortest_digits (m : positive) (e : Z) : Z * Z :=
  let unit := 2 ^ Z.max 0 (e - 2) in
  let den := 2 ^ Z.max 0 (2 - e) in
  let num := 4 * Z.pos m * unit in
  let du := 2 * unit in
  let dl := if (Z.pos m =? 2 ^ 52) && (-1074 <? e) then unit else 2 * unit in
  let q0 := ((Z.log2 (Z.pos m) + e + 1) * 30103) / 100000 + 2 in
  shortest_from num den dl du (Z.even (Z.pos m))
                (Z.to_nat (q0 - Z.min e 0)) q0.

(** The layout of [repr]: exponent notation when the decimal point falls
    more than 16 digits to the right or 4 or more to the left of the digits,
    fixed notation with at least one digit after the point otherwise. *)
Definition format_repr (d q : Z) : string :=
  let ds := Z_to_string d in
  let n := Z.of_nat (String.length ds) in
  let decpt := n + q in
  if (decpt <=? -4) || (16 <? decpt) then
    let x := decpt - 1 in
    take 1 ds ++ (if 1 <? n then "." ++ drop 1 ds else "")
      ++ "e" ++ (if x <? 0 then "-" else "+")
      ++ (if Z.abs x <? 10 then "0" else "") ++ Z_to_string (Z.abs x)
  else if decpt <=? 0 then "0." ++ zeros (Z.to_nat (- decpt)) ++ ds
  else if n <=? decpt then ds ++ zeros (Z.to_nat (decpt - n)) ++ ".0"
  else take (Z.to_nat decpt) ds ++ "." ++ drop (Z.to_nat decpt) ds.

Definition float_repr (f : spec_float) : string :=
  match f with
  | S754_zero s => if s then "-0.0" else "0.0"
  | S754_infinity s => if s then "-inf" else "inf"
  | S754_nan => "nan"
  | S754_finite s m e =>
      let (d, q) := shortest_digits m e in
      (if s then "-" else "") ++ format_repr d q
  end.

End FloatRepr.

(** The float literals of [ffx.py], as binary64 values. *)
Definition f_0_0 : spec_float := S754_zero false.
Definition f_1_0 : spec_float := S754_finite false 4503599627370496 (-52).
Definition f_0_6 : spec_float := S754_finite false 5404319552844595 (-53).
Definition f_0_1 : spec_float := S754_finite false 7205759403792794 (-56).
Definition f_0_4 : spec_float := S754_finite false 7205759403792794 (-54).
Definition f_2_0 : spec_float := S754_finite false 4503599627370496 (-51).
Definition f_1_5 : spec_float := S754_finite false 6755399441055744 (-52).
Definition f_3_0 : spec_float := S754_finite false 6755399441055744 (-51).

(* ===================================================================== *)
(** ** Python values *)
(* ===================================================================== *)

#[local] Unset Elimination Schemes.

Inductive pyval : Type :=
| PNone
| PBool (b : bool)
| PInt (z : Z)
| PFloat (f : spec_float)
| PStr (s : string)
| PList (l : list pyval)
| PDict (d : list (pyval * pyval)).

#[local] Set Elimination Schemes.

(** [bool(v)] *)
Definition truthy (v : pyval) : bool :=
  match v with
  | PNone => false
  | PBool b => b
  | PInt z => negb (z =? 0)
  | PFloat f => match f with S754_zero _ => false | _ => true end
  | PStr s => negb (String.eqb s "")
  | PList l => match l with [] => false | _ => true end
  | PDict d => match d with [] => false | _ => true end
  end.

(** [z == f] for an [int] and a [float]: the comparison is exact. *)
Definition Z_eq_float (z : Z) (f : spec_float) : bool :=
  match f with
  | S754_zero _ => z =? 0
  | S754_finite s m e =>
      let x := if s then Z.neg m else Z.pos m in
      if 0 <=? e then z =? x * 2 ^ e
      else (x mod 2 ^ (- e) =? 0) && (z =? x / 2 ^ (- e))
  | _ => false
  end.

(** [v == f] where [f] is a float. *)
Definition py_eq_float (v : pyval) (f : spec_float) : bool :=
  match v with
  | PBool b => Z_eq_float (if b then 1 else 0) f
  | PInt z => Z_eq_float z f
  | PFloat g => SFeqb g f
  | _ => false
  end.

(** [v == s] where [s] is a string. *)
Definition py_eq_str (v : pyval) (s : string) : bool :=
  match v with
  | PStr t => String.eqb t s
  | _ => false
  end.

(** [repr] of a string: quoted with ['], or with ["] when the string has a
    ['] and no ["]; the quote, the backslash and the characters that are not
    printable are escaped. *)
Definition hex_digit (n : N) : ascii :=
  nth (N.to_nat n)
      ["0"; "1"; "2"; "3"; "4"; "5"; "6"; "7"; "8"; "9"; "a"; "b"; "c"; "d"; "e"; "f"]%char
      "f"%char.

Definition is_printable (c : ascii) : bool :=
  let n := N_of_ascii c in
  (((32 <=? n) && (n <? 127)) || ((161 <=? n) && negb (n =? 173)))%N.

Definition repr_char (quote c : ascii) : string :=
  let n := N_of_ascii c in
  if Ascii.eqb c quote || Ascii.eqb c "\" then String "\" (String c "")
  else if (n =? 9)%N then "\t"
  else if (n =? 10)%N then "\n"
  else if (n =? 13)%N then "\r"
  else if is_printable c then String c ""
  else String "\" (String "x" (String (hex_digit (n / 16)) (String (hex_digit (n mod 16)) ""))).

Fixpoint has_char (a : ascii) (s : string) : bool :=
  match s with
  | "" => false
  | String c t => Ascii.eqb c a || has_char a t
  end.

Fixpoint repr_chars (quote : ascii) (s : string) : string :=
  match s with
  | "" => ""
  | String c t => repr_char quote c ++ repr_chars quote t
  end.

Definition dquote : ascii := "034".

Definition str_repr (s : string) : string :=
  let quote : ascii :=
    if has_char "'" s && negb (has_char dquote s) then dquote else "'"%char in
  String quote (repr_chars quote s ++ String quote "").

(** [repr(v)] *)
Fixpoint py_repr (v : pyval) : string :=
  match v with
  | PNone => "None"
  | PBool b => if b then "True" else "False"
  | PInt z => Z_to_string z
  | PFloat f => FloatRepr.float_repr f
  | PStr s => str_repr s
  | PList l => "[" ++ join ", " (map py_repr l) ++ "]"
  | PDict d =>
      "{" ++ join ", " (map (fun kv => let '(k, x) := kv in
                                       py_repr k ++ ": " ++ py_repr x) d) ++ "}"
  end.

(** [str(v)], which is what an f-string field [{v}] renders. *)
Definition py_str (v : pyval) : string :=
  match v with
  | PStr s => s
  | _ => py_repr v
  end.

(* ===================================================================== *)
(** ** Exceptions *)
(* ===================================================================== *)

Inductive exn : Type := AttributeError | TypeError.

Inductive result (A : Type) : Type :=
| Ok (a : A)
| Raise (e : exn).

Arguments Ok {A} a.
Arguments Raise {A} e.

Definition bind {A B : Type} (r : result A) (k : A -> result B) : result B :=
  match r with
  | Ok a => k a
  | Raise e => Raise e
  end.

Notation "x <- r ;; k" := (bind r (fun x => k))
  (at level 61, r at next level, right associativity).

Fixpoint mapM {A B : Type} (f : A -> result B) (l : list A) : result (list B) :=
  match l with
  | [] => Ok []
  | a :: t => b <- f a ;; bs <- mapM f t ;; Ok (b :: bs)
  end.

(* ===================================================================== *)
(** ** Dicts and the other operations of Python the builders use *)
(* ===================================================================== *)

(** The value stored under the string key [k]. *)
Fixpoint lookup (k : string) (d : list (pyval * pyval)) : option pyval :=
  match d with
  | [] => None
  | (PStr k', v) :: t => if String.eqb k' k then Some v else lookup k t
  | _ :: t => lookup k t
  end.

(** [o.get(k, default)]: only a dict has the method. *)
Definition get (o : pyval) (k : string) (default : pyval) : result pyval :=
  match o with
  | PDict d =>
      Ok (match lookup k d with
          | Some v => v
          | None => default
          end)
  | _ => Raise AttributeError
  end.

(** The number of iterations of [for _ in range(v)]: [range] takes an
    [int] (a [bool] is one). *)
Definition range_len (v : pyval) : result nat :=
  match v with
  | PInt z => Ok (Z.to_nat z)
  | PBool b => Ok (if b then 1%nat else 0%nat)
  | _ => Raise TypeError
  end.

(** The items [",".join(v)] joins: those of a list, the characters of a
    string, the keys of a dict; each must be a [str]. *)
Definition str_item (v : pyval) : result string :=
  match v with
  | PStr s => Ok s
  | _ => Raise TypeError
  end.

Definition join_items (v : pyval) : result (list string) :=
  match v with
  | PList l => mapM str_item l
  | PStr s => Ok (chars s)
  | PDict d => mapM (fun kv => str_item (fst kv)) d
  | _ => Raise TypeError
  end.

(* ===================================================================== *)
(** ** Utility *)
(* ===================================================================== *)

(** [add_filter(filters, frag)]: the list [filters] is mutated in place; the
    model returns its new value.  [frag] is [None] or a [str]. *)
Definition add_filter (filters : list string) (frag : option string) : list string :=
  match frag with
  | None => filters
  | Some "" => filters
  | Some frag =>
      let frag := rstrip_commas (strip frag) in
      match frag with
      | "" => filters
      | _ => filters ++ [frag]
      end
  end.

(* ===================================================================== *)
(** ** Filter builders *)
(* ===================================================================== *)

Definition build_eq (cfg : pyval) : result (option string) :=
  c <- get cfg "eq" (PDict []) ;;
  enabled <- get c "enabled" (PBool false) ;;
  if negb (truthy enabled) then Ok None else
  brightness <- get c "brightness" (PFloat f_0_0) ;;
  contrast <- get c "contrast" (PFloat f_1_0) ;;
  gamma <- get c "gamma" (PFloat f_1_0) ;;
  saturation <- get c "saturation" (PFloat f_1_0) ;;
  Ok (Some ("eq="
            ++ "brightness=" ++ py_str brightness ++ ":"
            ++ "contrast=" ++ py_str contrast ++ ":"
            ++ "gamma=" ++ py_str gamma ++ ":"
            ++ "saturation=" ++ py_str saturation)).

Definition build_unsharp (cfg : pyval) : result (option string) :=
  c <- get cfg "sharpen" (PDict []) ;;
  enabled <- get c "enabled" (PBool false) ;;
  if negb (truthy enabled) then Ok None else
  m <- get c "main" (PDict []) ;;
  msize_x <- get m "msize_x" (PInt 5) ;;
  msize_y <- get m "msize_y" (PInt 5) ;;
  amount <- get m "amount" (PFloat f_0_6) ;;
  msize_x_chroma <- get m "msize_x_chroma" (PInt 5) ;;
  msize_y_chroma <- get m "msize_y_chroma" (PInt 5) ;;
  amount_chroma <- get m "amount_chroma" (PFloat f_0_1) ;;
  Ok (Some ("unsharp="
            ++ py_str msize_x ++ ":" ++ py_str msize_y ++ ":" ++ py_str amount ++ ":"
            ++ py_str msize_x_chroma ++ ":" ++ py_str msize_y_chroma ++ ":"
            ++ py_str amount_chroma)).

Definition build_extra_sharpen (cfg : pyval) : result (option string) :=
  c <- get cfg "sharpen" (PDict []) ;;
  extra_enabled <- get c "extra_enabled" (PBool false) ;;
  if negb (truthy extra_enabled) then Ok None else
  e <- get c "extra" (PDict []) ;;
  msize <- get e "msize" (PInt 3) ;;
  msize' <- get e "msize" (PInt 3) ;;
  amount <- get e "amount" (PFloat f_0_4) ;;
  Ok (Some ("unsharp="
            ++ py_str msize ++ ":" ++ py_str msize' ++ ":" ++ py_str amount)).

Definition build_deblur (cfg : pyval) : result (option string) :=
  c <- get cfg "deblur" (PDict []) ;;
  enabled <- get c "enabled" (PBool false) ;;
  if negb (truthy enabled) then Ok None else
  method <- get c "method" (PStr "convolution") ;;
  if py_eq_str method "convolution" then
    k <- get c "kernel" (PStr "-1 -1 -1 -1 9 -1 -1 -1 -1") ;;
    Ok (Some ("convolution='" ++ py_str k ++ "'"))
  else if py_eq_str method "unsharp_multi" then
    passes <- get c "passes" (PInt 2) ;;
    amount <- get c "amount" (PFloat f_1_0) ;;
    msize <- get c "msize" (PInt 5) ;;
    n <- range_len passes ;;
    let chain :=
      repeat ("unsharp=" ++ py_str msize ++ ":" ++ py_str msize ++ ":" ++ py_str amount) n in
    Ok (Some (join "," chain))
  else Ok None.

Definition build_denoise (cfg : pyval) : result (option string) :=
  c <- get cfg "denoise" (PDict []) ;;
  enabled <- get c "enabled" (PBool false) ;;
  if negb (truthy enabled) then Ok None else
  luma <- get c "luma" (PFloat f_2_0) ;;
  chroma <- get c "chroma" (PFloat f_1_5) ;;
  time <- get c "time" (PFloat f_3_0) ;;
  chroma_time <- get c "chroma_time" (PFloat f_0_0) ;;
  Ok (Some ("hqdn3d="
            ++ py_str luma ++ ":"
            ++ py_str chroma ++ ":"
            ++ py_str time ++ ":"
            ++ py_str chroma_time)).

Definition build_blur (cfg : pyval) : result (option string) :=
  c <- get cfg "blur" (PDict []) ;;
  enabled <- get c "enabled" (PBool false) ;;
  if negb (truthy enabled) then Ok None else
  r <- get c "radius" (PInt 2) ;;
  Ok (Some ("boxblur=" ++ py_str r)).

Definition build_grain (cfg : pyval) : result (option string) :=
  c <- get cfg "grain" (PDict []) ;;
  enabled <- get c "enabled" (PBool false) ;;
  if negb (truthy enabled) then Ok None else
  strength <- get c "strength" (PInt 4) ;;
  frequency <- get c "frequency" (PStr "p") ;;
  Ok (Some ("noise=alls=" ++ py_str strength ++ ":allf=" ++ py_str frequency)).

Definition build_color_channel (cfg : pyval) : result (option string) :=
  cc <- get cfg "color_channels" (PDict []) ;;
  r <- get cc "red" (PFloat f_1_0) ;;
  g <- get cc "green" (PFloat f_1_0) ;;
  b <- get cc "blue" (PFloat f_1_0) ;;
  if py_eq_float r f_1_0 && py_eq_float g f_1_0 && py_eq_float b f_1_0 then Ok None else
  Ok (Some ("eq=red_mul=" ++ py_str r ++ ":green_mul=" ++ py_str g
            ++ ":blue_mul=" ++ py_str b)).

Definition build_custom (cfg : pyval) : result (option string) :=
  c <- get cfg "custom_filters" (PList []) ;;
  if negb (truthy c) then Ok None else
  items <- join_items c ;;
  Ok (Some (join "," items)).

(* ===================================================================== *)
(** ** Main *)
(* ===================================================================== *)

(** The value of [filter_chain] in [main], as a function of the
    configuration [cfg] that [load_config] returned. *)
Definition main (cfg : pyval) : result string :=
  let filters := [] in
  f <- build_eq cfg ;; let filters := add_filter filters f in
  f <- build_color_channel cfg ;; let filters := add_filter filters f in
  f <- build_unsharp cfg ;; let filters := add_filter filters f in
  f <- build_extra_sharpen cfg ;; let filters := add_filter filters f in
  f <- build_deblur cfg ;; let filters := add_filter filters f in
  f <- build_denoise cfg ;; let filters := add_filter filters f in
  f <- build_blur cfg ;; let filters := add_filter filters f in
  f <- build_grain cfg ;; let filters := add_filter filters f in
  f <- build_custom cfg ;; let filters := add_filter filters f in
  Ok (join "," filters).

(* ===================================================================== *)
(** ** The catalog of stages and the chain it describes *)
(* ===================================================================== *)

Definition dict : Type := list (pyval * pyval).

(** The stages, and the builder of each. *)
Inductive stage : Type :=
| Equalize | ColorChannelMix | SharpenMain | SharpenExtra | Deblur
| Denoise | Blur | Grain | Custom.

Definition builder (st : stage) : pyval -> result (option string) :=
  match st with
  | Equalize => build_eq
  | ColorChannelMix => build_color_channel
  | SharpenMain => build_unsharp
  | SharpenExtra => build_extra_sharpen
  | Deblur => build_deblur
  | Denoise => build_denoise
  | Blur => build_blur
  | Grain => build_grain
  | Custom => build_custom
  end.

(** The catalog order: equalize, color-channel-mix, sharpen-main,
    sharpen-extra, deblur, denoise, blur, grain, custom. *)
Definition catalog : list stage :=
  [Equalize; ColorChannelMix; SharpenMain; SharpenExtra; Deblur;
   Denoise; Blur; Grain; Custom].

Definition stage_eqb (a b : stage) : bool :=
  match a, b with
  | Equalize, Equalize | ColorChannelMix, ColorChannelMix
  | SharpenMain, SharpenMain | SharpenExtra, SharpenExtra
  | Deblur, Deblur | Denoise, Denoise | Blur, Blur | Grain, Grain
  | Custom, Custom => true
  | _, _ => false
  end.

(** The outputs of the stage builders, in catalog order. *)
Definition stage_outputs (cfg : pyval) : result (list (option string)) :=
  mapM (fun st => builder st cfg) catalog.

(** What the assembler keeps of a builder's output: nothing when the output
    is absent or empty, else the output without its surrounding whitespace
    and its trailing commas, if something remains. *)
Definition normalise (frag : option string) : option string :=
  match frag with
  | None => None
  | Some s =>
      match rstrip_commas (strip s) with
      | "" => None
      | t => Some t
      end
  end.

(** The expression of a stage in the chain, when it is not absent. *)
Definition expression (cfg : pyval) (st : stage) : option string :=
  match builder st cfg with
  | Ok o => normalise o
  | Raise _ => None
  end.

(** The expressions that are not absent, in the order of the outputs. *)
Fixpoint present (outs : list (option string)) : list string :=
  match outs with
  | [] => []
  | o :: t =>
      match normalise o with
      | Some f => f :: present t
      | None => present t
      end
  end.

(** The chain as the specification describes it: the non-absent stage
    expressions in catalog order, joined by commas. *)
Definition chain_in_catalog_order (cfg : pyval) : result string :=
  outs <- stage_outputs cfg ;;
  Ok (join "," (present outs)).

(** A configuration with the same entries in another order. *)
Definition reordered (cfg cfg' : pyval) : Prop :=
  exists d d', cfg = PDict d /\ cfg' = PDict d' /\
               NoDup (map fst d) /\ Permutation d d'.

(* ===================================================================== *)
(** ** Separators in a chain *)
(* ===================================================================== *)

Definition starts_with (p : ascii -> bool) (s : string) : bool :=
  match s with
  | "" => false
  | String c _ => p c
  end.

Fixpoint ends_with (p : ascii -> bool) (s : string) : bool :=
  match s with
  | "" => false
  | String c t =>
      match t with
      | "" => p c
      | _ => ends_with p t
      end
  end.

Fixpoint all_chars (p : ascii -> bool) (s : string) : bool :=
  match s with
  | "" => true
  | String c t => p c && all_chars p t
  end.

Definition leading_sep (s : string) : bool := starts_with is_comma s.
Definition trailing_sep (s : string) : bool := ends_with is_comma s.

(** Two adjacent commas somewhere in [s]. *)
Fixpoint doubled_sep (s : string) : bool :=
  match s with
  | "" => false
  | String c t => (is_comma c && leading_sep t) || doubled_sep t
  end.

(** An expression that brings no leading and no doubled comma of its own. *)
Definition clean (f : string) : bool :=
  negb (leading_sep f) && negb (doubled_sep f).

(* ===================================================================== *)
(** ** Reading a configuration *)
(* ===================================================================== *)

(** The section [sec] is absent or a mapping. *)
Definition section_ok (d : dict) (sec : string) : bool :=
  match lookup sec d with
  | None | Some (PDict _) => true
  | Some _ => false
  end.

(** The option [sec.key], if the section is a mapping that has it. *)
Definition option_of (d : dict) (sec key : string) : option pyval :=
  match lookup sec d with
  | Some (PDict c) => lookup key c
  | _ => None
  end.

(** The flag [sec.key] is false (or falsy) or absent. *)
Definition flag_off (d : dict) (sec key : string) : bool :=
  section_ok d sec &&
  match option_of d sec key with
  | Some v => negb (truthy v)
  | None => true
  end.

(** The flag [sec.key] is there and truthy. *)
Definition flag_on (d : dict) (sec key : string) : bool :=
  match option_of d sec key with
  | Some v => truthy v
  | None => false
  end.

(** The channel is 1.0, or absent. *)
Definition unit_channel (d : dict) (color : string) : bool :=
  match option_of d "color_channels" color with
  | Some v => py_eq_float v f_1_0
  | None => true
  end.

(** The stage is switched off: its flag is false or absent; for the
    color-channel mix, all the channels are 1.0; for the custom filters, the
    list is empty or absent. *)
Definition stage_off (d : dict) (st : stage) : bool :=
  match st with
  | Equalize => flag_off d "eq" "enabled"
  | ColorChannelMix =>
      section_ok d "color_channels" && unit_channel d "red"
      && unit_channel d "green" && unit_channel d "blue"
  | SharpenMain => flag_off d "sharpen" "enabled"
  | SharpenExtra => flag_off d "sharpen" "extra_enabled"
  | Deblur => flag_off d "deblur" "enabled"
  | Denoise => flag_off d "denoise" "enabled"
  | Blur => flag_off d "blur" "enabled"
  | Grain => flag_off d "grain" "enabled"
  | Custom =>
      match lookup "custom_filters" d with
      | Some v => negb (truthy v)
      | None => true
      end
  end.

(** Every stage but [st] is switched off. *)
Definition others_off (d : dict) (st : stage) : bool :=
  forallb (fun st' => stage_eqb st st' || stage_off d st') catalog.

(** None of the keys is in the mapping. *)
Definition absent (keys : list string) (c : dict) : bool :=
  forallb (fun k => match lookup k c with None => true | Some _ => false end) keys.

(** The sub-section [sec.sub] is absent, or a mapping without the keys. *)
Definition sub_absent (d : dict) (sec sub : string) (keys : list string) : bool :=
  match option_of d sec sub with
  | None => true
  | Some (PDict m) => absent keys m
  | Some _ => false
  end.

(** The parameters of the section [sec] are all absent. *)
Definition params_absent (d : dict) (sec : string) (keys : list string) : bool :=
  match lookup sec d with
  | Some (PDict c) => absent keys c
  | _ => false
  end.

(** The stage is enabled and none of its parameters is given. *)
Definition enabled_with_defaults (d : dict) (st : stage) : bool :=
  match st with
  | Equalize =>
      flag_on d "eq" "enabled"
      && params_absent d "eq" ["brightness"; "contrast"; "gamma"; "saturation"]
  | SharpenMain =>
      flag_on d "sharpen" "enabled"
      && sub_absent d "sharpen" "main"
           ["msize_x"; "msize_y"; "amount"; "msize_x_chroma"; "msize_y_chroma";
            "amount_chroma"]
  | SharpenExtra =>
      flag_on d "sharpen" "extra_enabled"
      && sub_absent d "sharpen" "extra" ["msize"; "amount"]
  | Deblur =>
      flag_on d "deblur" "enabled" && params_absent d "deblur" ["method"; "kernel"]
  | Denoise =>
      flag_on d "denoise" "enabled"
      && params_absent d "denoise" ["luma"; "chroma"; "time"; "chroma_time"]
  | Blur => flag_on d "blur" "enabled" && params_absent d "blur" ["radius"]
  | Grain =>
      flag_on d "grain" "enabled" && params_absent d "grain" ["strength"; "frequency"]
  | ColorChannelMix | Custom => false
  end.

(** The expression of each stage with the documented default values. *)
Definition default_expression (st : stage) : option string :=
  match st with
  | Equalize => Some "eq=brightness=0.0:contrast=1.0:gamma=1.0:saturation=1.0"
  | SharpenMain => Some "unsharp=5:5:0.6:5:5:0.1"
  | SharpenExtra => Some "unsharp=3:3:0.4"
  | Deblur => Some "convolution='-1 -1 -1 -1 9 -1 -1 -1 -1'"
  | Denoise => Some "hqdn3d=2.0:1.5:3.0:0.0"
  | Blur => Some "boxblur=2"
  | Grain => Some "noise=alls=4:allf=p"
  | ColorChannelMix | Custom => None
  end.

(** The value of the parameter [key] of the mapping [c], or its default. *)
Definition param (c : dict) (key : string) (default : pyval) : pyval :=
  match lookup key c with
  | Some v => v
  | None => default
  end.

(** A configuration given by its sections, each under its name. *)
Definition config (sections : list (string * pyval)) : dict :=
  map (fun kv => (PStr (fst kv), snd kv)) sections.

(** The value of a channel: the one supplied, 1.0 when absent. *)
Definition channel (d : dict) (color : string) : pyval :=
  match option_of d "color_channels" color with
  | Some v => v
  | None => PFloat f_1_0
  end.

(** The channels are all equal to 1.0. *)
Definition identity_mix (d : dict) : bool :=
  py_eq_float (channel d "red") f_1_0 && py_eq_float (channel d "green") f_1_0
  && py_eq_float (channel d "blue") f_1_0.

(** No stage expression of the configuration begins with a comma or has two
    adjacent commas. *)
Definition clean_expressions (cfg : pyval) : bool :=
  forallb (fun st => match expression cfg st with
                     | Some f => clean f
                     | None => true
                     end) catalog.

(* ===================================================================== *)
(** ** Configurations used as examples *)
(* ===================================================================== *)

(** A configuration that lists [blur] before [eq], and the same one with
    the two sections swapped. *)
Definition cfg_blur_eq : pyval :=
  PDict (config [("blur", PDict (config [("enabled", PBool true)]));
                 ("eq", PDict (config [("enabled", PBool true)]))]).

Definition cfg_eq_blur : pyval :=
  PDict (config [("eq", PDict (config [("enabled", PBool true)]));
                 ("blur", PDict (config [("enabled", PBool true)]))]).

(** Every stage is switched off. *)
Definition cfg_all_off : dict :=
  config [("eq", PDict (config [("enabled", PBool false); ("contrast", PInt 2)]));
          ("color_channels",
            PDict (config [("red", PFloat f_1_0); ("green", PFloat f_1_0);
                           ("blue", PFloat f_1_0)]));
          ("sharpen", PDict (config [("extra_enabled", PBool false)]));
          ("grain", PDict []);
          ("custom_filters", PList [])].

(** Red and blue are not 1.0, green is absent. *)
Definition cfg_red_mix : dict :=
  config [("color_channels", PDict (config [("red", PFloat f_1_5); ("blue", PInt 2)]))].

(** The three channels are the float 1.0. *)
Definition cfg_unit_mix : dict :=
  config [("color_channels",
            PDict (config [("red", PFloat f_1_0); ("green", PFloat f_1_0);
                           ("blue", PFloat f_1_0)]))].

(** The three channels are the integer 1. *)
Definition cfg_integer_channels : dict :=
  config [("color_channels",
            PDict (config [("red", PInt 1); ("green", PInt 1); ("blue", PInt 1)]))].

(** [eq] with its defaults and two custom filters. *)
Definition cfg_eq_custom : pyval :=
  PDict (config [("eq", PDict (config [("enabled", PBool true)]));
                 ("custom_filters", PList [PStr " hflip"; PStr "crop=100:100:0:0,"])]).

(** Custom filters that begin with a comma. *)
Definition cfg_custom_commas : pyval :=
  PDict (config [("custom_filters", PList [PStr ",hflip"; PStr ",vflip"])]).

(** Deblur with a method that is not known. *)
Definition cfg_deblur_unknown : dict :=
  config [("deblur", PDict (config [("enabled", PBool true); ("method", PStr "unknown")]))].

(** Deblur with three passes of unsharp. *)
Definition cfg_unsharp_multi : dict :=
  config [("deblur",
            PDict (config [("enabled", PBool true); ("method", PStr "unsharp_multi");
                           ("passes", PInt 3); ("amount", PFloat f_1_0);
                           ("msize", PInt 5)]))].

(** Deblur with no pass of unsharp, and blur. *)
Definition cfg_no_passes : dict :=
  config [("deblur",
            PDict (config [("enabled", PBool true); ("method", PStr "unsharp_multi");
                           ("passes", PInt 0)]));
          ("blur", PDict (config [("enabled", PBool true)]))].

(** [eq] enabled, nothing else. *)
Definition cfg_eq_enabled : dict :=
  config [("eq", PDict (config [("enabled", PBool true)]))].

(* ===================================================================== *)
(** ** More on the sections, the values and the expressions *)
(* ===================================================================== *)

(** The top-level key each builder reads. *)
Definition section_name (st : stage) : string :=
  match st with
  | Equalize => "eq"
  | ColorChannelMix => "color_channels"
  | SharpenMain | SharpenExtra => "sharpen"
  | Deblur => "deblur"
  | Denoise => "denoise"
  | Blur => "blur"
  | Grain => "grain"
  | Custom => "custom_filters"
  end.

Definition is_mapping (v : pyval) : bool :=
  match v with
  | PDict _ => true
  | _ => false
  end.

Definition is_str (v : pyval) : bool :=
  match v with
  | PStr _ => true
  | _ => false
  end.

(** The values [range] accepts. *)
Definition is_count (v : pyval) : bool :=
  match v with
  | PInt _ | PBool _ => true
  | _ => false
  end.

(** The values [",".join] accepts: a list of strings, a string, a dict whose
    keys are strings. *)
Definition joinable (v : pyval) : bool :=
  match v with
  | PList l => forallb is_str l
  | PStr _ => true
  | PDict kvs => forallb (fun kv => is_str (fst kv)) kvs
  | _ => false
  end.

(** A string that is not empty, has no whitespace at either end and no
    comma at its end. *)
Definition trimmed (s : string) : bool :=
  negb (String.eqb s "") && negb (starts_with is_space s)
  && negb (ends_with is_space s) && negb (ends_with is_comma s).

(** The text every expression of the stage begins with; the deblur stage
    has two forms and the custom filters are free. *)
Definition stage_prefix (st : stage) : option string :=
  match st with
  | Equalize => Some "eq=brightness="
  | ColorChannelMix => Some "eq=red_mul="
  | SharpenMain | SharpenExtra => Some "unsharp="
  | Denoise => Some "hqdn3d="
  | Blur => Some "boxblur="
  | Grain => Some "noise=alls="
  | Deblur | Custom => None
  end.

(** The sub-section [sec.sub] is absent or a mapping. *)
Definition sub_ok (d : dict) (sec sub : string) : bool :=
  match option_of d sec sub with
  | None | Some (PDict _) => true
  | Some _ => false
  end.

(** The section of the stage, and the sub-section of its parameters for the
    two sharpen stages, are absent or mappings. *)
Definition ready (d : dict) (st : stage) : bool :=
  section_ok d (section_name st) &&
  match st with
  | SharpenMain => sub_ok d "sharpen" "main"
  | SharpenExtra => sub_ok d "sharpen" "extra"
  | _ => true
  end.

(** The values that are equal to 1.0. *)
Definition is_one (v : pyval) : Prop :=
  v = PFloat f_1_0 \/ v = PInt 1 \/ v = PBool true.

(** The section [eq] is given and left empty. *)
Definition cfg_eq_null : dict :=
  config [("eq", PNone); ("blur", PDict (config [("enabled", PBool true)]))].

(** Grain with its two parameters, in one order and in the other. *)
Definition cfg_grain : dict :=
  config [("grain", PDict (config [("enabled", PBool true); ("strength", PInt 8);
                                   ("frequency", PStr "t")]))].

Definition cfg_grain_swapped : dict :=
  config [("grain", PDict (config [("strength", PInt 8); ("enabled", PBool true);
                                   ("frequency", PStr "t")]))].

(** Deblur with a number of passes that is a float. *)
Definition cfg_float_passes : dict :=
  config [("deblur",
            PDict (config [("enabled", PBool true); ("method", PStr "unsharp_multi");
                           ("passes", PFloat f_2_0)]))].

(** Sharpen switched on with a string, its sub-section [main] absent. *)
Definition cfg_sharpen_yes : dict :=
  config [("sharpen", PDict (config [("enabled", PStr "no")]))].

(** The red channel is [True], the others are absent. *)
Definition cfg_red_true : dict :=
  config [("color_channels", PDict (config [("red", PBool true)]))].

(** Blur and grain, no custom filters. *)
Definition cfg_blur_grain : pyval :=
  PDict (config [("grain", PDict (config [("enabled", PBool true)]));
                 ("blur", PDict (config [("enabled", PBool true); ("radius", PStr ",3")]))]).

(* ===================================================================== *)
(** ** Lemmas on strings *)
(* ===================================================================== *)

Lemma append_nil_r (s : string) : s ++ "" = s.
Proof. induction s as [|c s IH]; simpl; [reflexivity | now rewrite IH]. Qed.

Lemma append_assoc (a b c : string) : (a ++ b) ++ c = a ++ b ++ c.
Proof. induction a as [|x a IH]; simpl; [reflexivity | now rewrite IH]. Qed.

Lemma append_eq_nil (a b : string) : a ++ b = "" -> a = "" /\ b = "".
Proof. destruct a; simpl; [auto | discriminate]. Qed.

Lemma starts_with_app p (a b : string) :
  starts_with p (a ++ b) = match a with "" => starts_with p b | _ => starts_with p a end.
Proof. destruct a; reflexivity. Qed.

Lemma ends_with_app p (a b : string) :
  ends_with p (a ++ b) = match b with "" => ends_with p a | _ => ends_with p b end.
Proof.
  induction a as [|c a IH]; simpl.
  - destruct b; reflexivity.
  - rewrite IH. destruct a; simpl; destruct b; reflexivity.
Qed.

Lemma doubled_sep_app (a b : string) :
  doubled_sep (a ++ b) =
  doubled_sep a || doubled_sep b || (trailing_sep a && leading_sep b).
Proof.
  unfold trailing_sep, leading_sep.
  induction a as [|c a IH]; simpl.
  - now rewrite orb_false_r.
  - rewrite IH. unfold leading_sep. rewrite starts_with_app.
    destruct a as [|c' a]; simpl.
    + destruct (is_comma c), (starts_with is_comma b), (doubled_sep b); reflexivity.
    + destruct (is_comma c), (is_comma c'), (doubled_sep a), (doubled_sep b),
        (match a with "" => is_comma c' | _ => ends_with is_comma a end),
        (starts_with is_comma b); reflexivity.
Qed.

(** What [lstrip_by] and [rstrip_by] remove and what they leave. *)
Lemma lstrip_by_split p (s : string) :
  exists pre, s = pre ++ lstrip_by p s /\ all_chars p pre = true.
Proof.
  induction s as [|c s [pre [E A]]]; simpl.
  - now exists "".
  - destruct (p c) eqn:Hc.
    + exists (String c pre). simpl. rewrite Hc, A. now rewrite <- E.
    + now exists "".
Qed.

Lemma lstrip_by_starts p (s : string) : starts_with p (lstrip_by p s) = false.
Proof.
  induction s as [|c s IH]; simpl; [reflexivity|].
  destruct (p c) eqn:Hc; [exact IH | simpl; exact Hc].
Qed.

Lemma rstrip_by_split p (s : string) :
  exists suf, s = rstrip_by p s ++ suf /\ all_chars p suf = true.
Proof.
  induction s as [|c s [suf [E A]]]; simpl.
  - now exists "".
  - destruct (rstrip_by p s) as [|c' t] eqn:R.
    + simpl in E. subst suf. destruct (p c) eqn:Hc.
      * exists (String c s). simpl. now rewrite Hc, A.
      * now exists s.
    + exists suf. simpl. split; [|exact A]. now rewrite E at 1.
Qed.

Lemma rstrip_by_ends p (s : string) : ends_with p (rstrip_by p s) = false.
Proof.
  induction s as [|c s IH]; simpl; [reflexivity|].
  destruct (rstrip_by p s) as [|c' t] eqn:R.
  - destruct (p c) eqn:Hc; simpl; [reflexivity | exact Hc].
  - exact IH.
Qed.

Lemma rstrip_by_starts p (s : string) :
  starts_with p s = false -> starts_with p (rstrip_by p s) = false.
Proof.
  destruct s as [|c s]; simpl; [reflexivity|].
  intros Hc. destruct (rstrip_by p s); [rewrite Hc|]; simpl; auto.
Qed.

(** [rstrip_by q] keeps the first character when something remains. *)
Lemma rstrip_by_first p q (s : string) :
  starts_with p s = false -> starts_with p (rstrip_by q s) = false.
Proof.
  destruct s as [|c s]; simpl; [reflexivity|].
  intros Hc. destruct (rstrip_by q s); [destruct (q c)|]; simpl; auto.
Qed.

(* ===================================================================== *)
(** ** Lemmas on [join] *)
(* ===================================================================== *)

Lemma join_cons sep (f g : string) (l : list string) :
  join sep (f :: g :: l) = f ++ sep ++ join sep (g :: l).
Proof. reflexivity. Qed.

Lemma join_cons_app sep (f : string) (l : list string) :
  l <> [] -> join sep (f :: l) = f ++ sep ++ join sep l.
Proof. destruct l; [congruence | reflexivity]. Qed.

Lemma join_nonempty sep (f : string) (l : list string) :
  f <> "" -> join sep (f :: l) <> "".
Proof.
  intros Hf. destruct l as [|g l]; simpl; [exact Hf|].
  intros E. apply append_eq_nil in E. tauto.
Qed.

(** A chain of expressions that do not end with a comma does not either. *)
Lemma join_trailing (l : list string) :
  Forall (fun f => f <> "" /\ trailing_sep f = false) l ->
  trailing_sep (join "," l) = false.
Proof.
  unfold trailing_sep.
  induction 1 as [|f l [Hf Ht] Hl IH]; [reflexivity|].
  destruct l as [|g l]; [exact Ht|].
  rewrite join_cons, ends_with_app.
  assert (Hne : join "," (g :: l) <> "").
  { apply join_nonempty. inversion Hl as [|? ? [Hg _] _]. exact Hg. }
  remember (join "," (g :: l)) as r eqn:J.
  destruct r as [|a r]; [congruence | exact IH].
Qed.

Lemma join_leading (l : list string) :
  Forall (fun f => f <> "") l ->
  forallb clean l = true ->
  leading_sep (join "," l) = false.
Proof.
  unfold leading_sep.
  intros Hne Hc. destruct l as [|f l]; [reflexivity|].
  simpl in Hc. apply andb_prop in Hc as [Hf _].
  unfold clean in Hf. apply andb_prop in Hf as [Hf _].
  apply negb_true_iff in Hf. unfold leading_sep in Hf.
  destruct l as [|g l]; [exact Hf|].
  rewrite join_cons, starts_with_app.
  inversion Hne as [|? ? Hf' _]. destruct f; [congruence | exact Hf].
Qed.

Lemma join_doubled (l : list string) :
  Forall (fun f => f <> "" /\ trailing_sep f = false) l ->
  forallb clean l = true ->
  doubled_sep (join "," l) = false.
Proof.
  induction 1 as [|f l [Hf Ht] Hl IH]; intros Hc; [reflexivity|].
  simpl in Hc. apply andb_prop in Hc as [Hcf Hcl].
  pose proof Hcf as Hcf'. unfold clean in Hcf'.
  apply andb_prop in Hcf' as [_ Hd]. apply negb_true_iff in Hd.
  destruct l as [|g l]; [exact Hd|].
  assert (Hlead : leading_sep (join "," (g :: l)) = false).
  { apply join_leading; [|exact Hcl].
    eapply Forall_impl; [|exact Hl]. now intros a [Ha _]. }
  specialize (IH Hcl).
  rewrite join_cons, doubled_sep_app, Hd, Ht.
  remember (join "," (g :: l)) as r eqn:J.
  simpl. now rewrite Hlead, IH.
Qed.

(* ===================================================================== *)
(** ** Lemmas on the assembler *)
(* ===================================================================== *)

Lemma normalise_good (o : option string) (f : string) :
  normalise o = Some f -> f <> "" /\ trailing_sep f = false.
Proof.
  destruct o as [s|]; simpl; [|discriminate].
  pose proof (rstrip_by_ends is_comma (strip s)) as E.
  unfold rstrip_commas. destruct (rstrip_by is_comma (strip s)); [discriminate|].
  intros [= <-]. split; [discriminate | exact E].
Qed.

Lemma present_good (outs : list (option string)) :
  Forall (fun f => f <> "" /\ trailing_sep f = false) (present outs).
Proof.
  induction outs as [|o outs IH]; simpl; [constructor|].
  destruct (normalise o) as [f|] eqn:N; [|exact IH].
  constructor; [now apply (normalise_good o) | exact IH].
Qed.

Lemma present_app (a b : list (option string)) :
  present (a ++ b) = (present a ++ present b)%list.
Proof.
  induction a as [|o a IH]; simpl; [reflexivity|].
  destruct (normalise o); simpl; now rewrite IH.
Qed.

Lemma add_filter_present (filters : list string) (frag : option string) :
  add_filter filters frag = (filters ++ present [frag])%list.
Proof.
  destruct frag as [[|c s]|]; simpl; try now rewrite app_nil_r.
  destruct (rstrip_commas (strip (String c s))); simpl; [now rewrite app_nil_r | reflexivity].
Qed.

Lemma fold_add_filter (outs : list (option string)) (filters : list string) :
  fold_left add_filter outs filters = (filters ++ present outs)%list.
Proof.
  revert filters. induction outs as [|o outs IH]; intros filters; simpl fold_left.
  - simpl. now rewrite app_nil_r.
  - rewrite IH, add_filter_present, <- app_assoc.
    now rewrite <- present_app.
Qed.

(** [main] calls the builders in catalog order and joins what the assembler
    kept of their outputs. *)
Lemma main_spec (cfg : pyval) : main cfg = chain_in_catalog_order cfg.
Proof.
  unfold main, chain_in_catalog_order, stage_outputs, catalog.
  cbn [mapM builder].
  destruct (build_eq cfg) as [o1|]; cbn [bind]; [|reflexivity].
  destruct (build_color_channel cfg) as [o2|]; cbn [bind]; [|reflexivity].
  destruct (build_unsharp cfg) as [o3|]; cbn [bind]; [|reflexivity].
  destruct (build_extra_sharpen cfg) as [o4|]; cbn [bind]; [|reflexivity].
  destruct (build_deblur cfg) as [o5|]; cbn [bind]; [|reflexivity].
  destruct (build_denoise cfg) as [o6|]; cbn [bind]; [|reflexivity].
  destruct (build_blur cfg) as [o7|]; cbn [bind]; [|reflexivity].
  destruct (build_grain cfg) as [o8|]; cbn [bind]; [|reflexivity].
  destruct (build_custom cfg) as [o9|]; cbn [bind]; [|reflexivity].
  change (Ok (join "," (fold_left add_filter [o1; o2; o3; o4; o5; o6; o7; o8; o9] []))
          = Ok (join "," (present [o1; o2; o3; o4; o5; o6; o7; o8; o9]))).
  now rewrite fold_add_filter.
Qed.

Lemma stage_outputs_main (cfg : pyval) (outs : list (option string)) :
  stage_outputs cfg = Ok outs -> main cfg = Ok (join "," (present outs)).
Proof. intros H. rewrite main_spec. unfold chain_in_catalog_order. now rewrite H. Qed.

Lemma main_stage_outputs (cfg : pyval) (chain : string) :
  main cfg = Ok chain ->
  exists outs, stage_outputs cfg = Ok outs /\ chain = join "," (present outs).
Proof.
  rewrite main_spec. unfold chain_in_catalog_order.
  destruct (stage_outputs cfg) as [outs|]; cbn [bind]; [|discriminate].
  intros [= <-]. now exists outs.
Qed.

(** The outputs are those of the builders, one for each stage of the
    catalog. *)
Lemma mapM_Forall2 {A B : Type} (f : A -> result B) (l : list A) (bs : list B) :
  mapM f l = Ok bs -> Forall2 (fun a b => f a = Ok b) l bs.
Proof.
  revert bs. induction l as [|a l IH]; intros bs; simpl.
  - intros [= <-]. constructor.
  - destruct (f a) as [b|] eqn:Fa; cbn [bind]; [|discriminate].
    destruct (mapM f l) as [bs'|]; cbn [bind]; [|discriminate].
    intros [= <-]. constructor; auto.
Qed.

(* ===================================================================== *)
(** ** Lemmas on dicts *)
(* ===================================================================== *)

Lemma lookup_In (k : string) (d : dict) (v : pyval) :
  lookup k d = Some v -> In (PStr k, v) d.
Proof.
  induction d as [|[k' v'] d IH]; simpl; [discriminate|].
  destruct k'; auto.
  destruct (String.eqb s k) eqn:E; auto.
  apply String.eqb_eq in E. intros [= ->]. left. now subst.
Qed.

Lemma In_lookup (k : string) (d : dict) (v : pyval) :
  NoDup (map fst d) -> In (PStr k, v) d -> lookup k d = Some v.
Proof.
  induction d as [|[k' v'] d IH]; simpl; [tauto|].
  intros N. inversion N as [|? ? Hnin N']; subst.
  intros [[= -> ->]|Hin].
  - now rewrite String.eqb_refl.
  - destruct k'; auto.
    destruct (String.eqb s k) eqn:E; auto.
    apply String.eqb_eq in E. subst s. exfalso. apply Hnin.
    change (PStr k) with (fst (PStr k, v)). now apply in_map.
Qed.

Lemma lookup_perm (k : string) (d d' : dict) :
  NoDup (map fst d) -> Permutation d d' -> lookup k d = lookup k d'.
Proof.
  intros N P.
  assert (N' : NoDup (map fst d')).
  { eapply Permutation_NoDup; [|exact N]. now apply Permutation_map. }
  destruct (lookup k d) as [v|] eqn:L.
  - symmetry. apply In_lookup; [exact N'|].
    eapply Permutation_in; [exact P|]. now apply lookup_In.
  - destruct (lookup k d') as [v'|] eqn:L'; [|reflexivity].
    apply lookup_In in L'. apply Permutation_sym in P.
    apply (Permutation_in _ P) in L'. apply (In_lookup _ _ _ N) in L'. congruence.
Qed.

Lemma get_ext (d d' : dict) :
  (forall k, lookup k d = lookup k d') ->
  forall k default, get (PDict d) k default = get (PDict d') k default.
Proof. intros H k default. unfold get. now rewrite H. Qed.

(** The chain depends on the configuration through its lookups only. *)
Lemma main_ext (d d' : dict) :
  (forall k, lookup k d = lookup k d') -> main (PDict d) = main (PDict d').
Proof.
  intros H.
  unfold main, build_eq, build_color_channel, build_unsharp, build_extra_sharpen,
    build_deblur, build_denoise, build_blur, build_grain, build_custom.
  now rewrite !(get_ext d d' H).
Qed.

(* ===================================================================== *)
(** ** Lemmas on the builders *)
(* ===================================================================== *)

Lemma get_param (c : dict) (k : string) (default : pyval) :
  get (PDict c) k default = Ok (param c k default).
Proof. reflexivity. Qed.

Lemma flag_off_get (d : dict) (sec key : string) :
  flag_off d sec key = true ->
  exists c, get (PDict d) sec (PDict []) = Ok (PDict c) /\
            truthy (param c key (PBool false)) = false.
Proof.
  unfold flag_off, section_ok, option_of, get, param.
  destruct (lookup sec d) as [[| | | | | |c]|]; simpl; try discriminate.
  - intros H. exists c. split; [reflexivity|].
    destruct (lookup key c); [now apply negb_true_iff | reflexivity].
  - intros _. now exists [].
Qed.

Lemma flag_on_get (d : dict) (sec key : string) :
  flag_on d sec key = true ->
  exists c, lookup sec d = Some (PDict c) /\
            truthy (param c key (PBool false)) = true.
Proof.
  unfold flag_on, option_of, param.
  destruct (lookup sec d) as [[| | | | | |c]|]; simpl; try discriminate.
  intros H. exists c. split; [reflexivity|].
  destruct (lookup key c); [exact H | discriminate].
Qed.

Lemma absent_param (keys : list string) (c : dict) (k : string) (default : pyval) :
  absent keys c = true -> In k keys -> param c k default = default.
Proof.
  unfold absent, param. rewrite forallb_forall. intros H Hin.
  specialize (H k Hin). now destruct (lookup k c).
Qed.

(** A stage whose flag is off: the builder returns at the flag. *)
Ltac flag_is_off H :=
  apply flag_off_get in H as (c & Hc & Hv);
  rewrite Hc; cbn [bind]; rewrite get_param; cbn [bind]; rewrite Hv; reflexivity.

Lemma unit_channel_param (d c : dict) (color : string) :
  lookup "color_channels" d = Some (PDict c) ->
  unit_channel d color = true ->
  py_eq_float (param c color (PFloat f_1_0)) f_1_0 = true.
Proof.
  unfold unit_channel, option_of, param. intros ->.
  destruct (lookup color c); [auto | reflexivity].
Qed.

Lemma stage_off_absent (d : dict) (st : stage) :
  stage_off d st = true -> builder st (PDict d) = Ok None.
Proof.
  destruct st; cbn [stage_off builder]; intros H.
  - unfold build_eq. flag_is_off H.
  - unfold build_color_channel.
    apply andb_prop in H as [H Hb]. apply andb_prop in H as [H Hg].
    apply andb_prop in H as [Hs Hr].
    unfold section_ok in Hs. unfold get at 1.
    destruct (lookup "color_channels" d) as [[| | | | | |c]|] eqn:L;
      try discriminate; cbn [bind]; rewrite !get_param; cbn [bind].
    + now rewrite (unit_channel_param d c "red" L Hr),
        (unit_channel_param d c "green" L Hg), (unit_channel_param d c "blue" L Hb).
    + reflexivity.
  - unfold build_unsharp. flag_is_off H.
  - unfold build_extra_sharpen. flag_is_off H.
  - unfold build_deblur. flag_is_off H.
  - unfold build_denoise. flag_is_off H.
  - unfold build_blur. flag_is_off H.
  - unfold build_grain. flag_is_off H.
  - unfold build_custom, get.
    destruct (lookup "custom_filters" d) as [v|]; cbn [bind]; [|reflexivity].
    now rewrite H.
Qed.

(** When every other stage is off, the chain is the one expression of the
    stage, as the assembler keeps it. *)
Lemma others_off_main (d : dict) (st : stage) (o : option string) :
  others_off d st = true ->
  builder st (PDict d) = Ok o ->
  main (PDict d) = Ok (join "," (present [o])).
Proof.
  unfold others_off, catalog. cbn [forallb]. intros H Hb.
  repeat (apply andb_prop in H as [?H H]).
  rewrite main_spec. unfold chain_in_catalog_order, stage_outputs, catalog.
  cbn [mapM].
  destruct st; cbn [stage_eqb orb] in *; rewrite Hb;
    repeat match goal with
           | Hoff : stage_off d ?s = true |- _ =>
               rewrite (stage_off_absent d s Hoff); clear Hoff
           end;
    cbn [bind present normalise]; destruct (normalise o); reflexivity.
Qed.

(* ===================================================================== *)
(** ** Stage order *)
(* ===================================================================== *)

Lemma join_app sep (l1 : list string) :
  exists pre, forall l2, l2 <> [] -> join sep (l1 ++ l2) = pre ++ join sep l2.
Proof.
  induction l1 as [|a l1 [pre E]].
  - now exists "".
  - exists (a ++ sep ++ pre). intros l2 Hl2. specialize (E l2 Hl2).
    simpl app. destruct (l1 ++ l2)%list as [|b r] eqn:L.
    + apply app_eq_nil in L. tauto.
    + now rewrite join_cons, E, !append_assoc.
Qed.

Lemma join_head sep (f : string) (l : list string) :
  exists post, join sep (f :: l) = f ++ post.
Proof.
  destruct l as [|g l].
  - exists "". simpl. now rewrite append_nil_r.
  - now exists (sep ++ join sep (g :: l)).
Qed.

Lemma present_one (outs : list (option string)) (j : nat) (o : option string) (f : string) :
  nth_error outs j = Some o -> normalise o = Some f ->
  exists b c, present outs = (b ++ f :: c)%list.
Proof.
  revert j. induction outs as [|x outs IH]; intros [|j]; simpl; try discriminate.
  - intros [= ->] ->. now exists [], (present outs).
  - intros Hj Hf. destruct (IH j Hj Hf) as (b & c & E). rewrite E.
    destruct (normalise x) as [g|]; [now exists (g :: b), c | now exists b, c].
Qed.

Lemma present_two (outs : list (option string)) (i j : nat)
      (oi oj : option string) (fi fj : string) :
  (i < j)%nat ->
  nth_error outs i = Some oi -> normalise oi = Some fi ->
  nth_error outs j = Some oj -> normalise oj = Some fj ->
  exists a b c, present outs = (a ++ fi :: b ++ fj :: c)%list.
Proof.
  revert i j. induction outs as [|x outs IH]; intros [|i] [|j] Hlt; simpl;
    try discriminate; try lia.
  - intros [= ->] -> Hj Hfj.
    destruct (present_one outs j oj fj Hj Hfj) as (b & c & E).
    exists [], b, c. now rewrite E.
  - intros Hi Hfi Hj Hfj.
    destruct (IH i j ltac:(lia) Hi Hfi Hj Hfj) as (a & b & c & E). rewrite E.
    destruct (normalise x) as [g|]; [now exists (g :: a), b, c | now exists a, b, c].
Qed.

Lemma Forall2_nth_error {A B : Type} (R : A -> B -> Prop) (l : list A) (l' : list B)
      (i : nat) (a : A) :
  Forall2 R l l' -> nth_error l i = Some a ->
  exists b, nth_error l' i = Some b /\ R a b.
Proof.
  intros H. revert i. induction H as [|x y l l' Hxy H IH]; intros [|i]; simpl;
    try discriminate.
  - intros [= ->]. now exists y.
  - apply IH.
Qed.

Lemma expression_output (cfg : pyval) (outs : list (option string))
      (i : nat) (st : stage) (f : string) :
  stage_outputs cfg = Ok outs ->
  nth_error catalog i = Some st -> expression cfg st = Some f ->
  exists o, nth_error outs i = Some o /\ normalise o = Some f.
Proof.
  intros Ho Hi He. apply mapM_Forall2 in Ho.
  destruct (Forall2_nth_error _ _ _ _ _ Ho Hi) as (o & Hn & Hb).
  exists o. split; [exact Hn|]. unfold expression in He. now rewrite Hb in He.
Qed.

(** C1. The chain is made of the stage expressions that are not absent, in
    the order of the catalog (equalize, color-channel-mix, sharpen-main,
    sharpen-extra, deblur, denoise, blur, grain, custom): [main] computes
    the chain the catalog describes; of two stages with an expression, the
    expression of the one that comes first in the catalog comes first in the
    chain; and the order of the keys in the configuration does not change
    the chain. *)
Theorem catalog_order (cfg : pyval) :
  main cfg = chain_in_catalog_order cfg
  /\ (forall (i j : nat) (si sj : stage) (fi fj chain : string),
         (i < j)%nat ->
         nth_error catalog i = Some si -> nth_error catalog j = Some sj ->
         expression cfg si = Some fi -> expression cfg sj = Some fj ->
         main cfg = Ok chain ->
         exists pre mid post, chain = pre ++ fi ++ mid ++ fj ++ post)
  /\ (forall cfg', reordered cfg cfg' -> main cfg' = main cfg).
Proof.
  split; [apply main_spec|]. split.
  - intros i j si sj fi fj chain Hlt Hi Hj Hfi Hfj Hm.
    apply main_stage_outputs in Hm as (outs & Ho & ->).
    destruct (expression_output cfg outs i si fi Ho Hi Hfi) as (oi & Hni & Hoi).
    destruct (expression_output cfg outs j sj fj Ho Hj Hfj) as (oj & Hnj & Hoj).
    destruct (present_two outs i j oi oj fi fj Hlt Hni Hoi Hnj Hoj)
      as (a & b & c & ->).
    destruct (join_app "," a) as [pre Ea].
    destruct (join_app "," b) as [pre' Eb].
    destruct (join_head "," fj c) as [post Ec].
    exists pre, ("," ++ pre'), post.
    assert (Hne : (b ++ fj :: c)%list <> []) by now destruct b.
    rewrite Ea by discriminate.
    rewrite (join_cons_app "," fi _ Hne), Eb, Ec by discriminate.
    now rewrite !append_assoc.
  - intros cfg' (d & d' & -> & -> & N & P).
    symmetry. apply main_ext. intros k. now apply lookup_perm.
Qed.

Lemma catalog_order_witness :
  main cfg_blur_eq = chain_in_catalog_order cfg_blur_eq
  /\ (exists pre mid post,
         "eq=brightness=0.0:contrast=1.0:gamma=1.0:saturation=1.0,boxblur=2"
         = pre ++ "eq=brightness=0.0:contrast=1.0:gamma=1.0:saturation=1.0"
               ++ mid ++ "boxblur=2" ++ post)
  /\ main cfg_eq_blur = main cfg_blur_eq.
Proof.
  destruct (catalog_order cfg_blur_eq) as (H1 & H2 & H3).
  split; [exact H1|]. split.
  - apply (H2 0%nat 6%nat Equalize Blur); [lia | vm_compute; reflexivity ..].
  - apply H3. unfold reordered, cfg_blur_eq, cfg_eq_blur.
    eexists _, _. split; [reflexivity|]. split; [reflexivity|]. split.
    + simpl. repeat constructor; simpl; intuition discriminate.
    + apply perm_swap.
Defined.

(* ===================================================================== *)
(** ** The empty chain *)
(* ===================================================================== *)

(** C2. When every enabled flag ([eq.enabled], [sharpen.enabled],
    [sharpen.extra_enabled], [deblur.enabled], [denoise.enabled],
    [blur.enabled], [grain.enabled]) is false or absent, every color channel
    is 1.0 (or absent) and [custom_filters] is empty or absent, the chain is
    the empty string. *)
Theorem all_off_empty_chain (d : dict) :
  forallb (stage_off d) catalog = true -> main (PDict d) = Ok "".
Proof.
  unfold catalog. cbn [forallb]. intros H.
  repeat (apply andb_prop in H as [?H H]).
  rewrite main_spec. unfold chain_in_catalog_order, stage_outputs, catalog.
  cbn [mapM].
  repeat match goal with
         | Hoff : stage_off d ?s = true |- _ =>
             rewrite (stage_off_absent d s Hoff); clear Hoff
         end.
  reflexivity.
Qed.

Lemma all_off_empty_chain_witness :
  forallb (stage_off cfg_all_off) catalog = true /\ main (PDict cfg_all_off) = Ok "".
Proof.
  split; [vm_compute; reflexivity | apply all_off_empty_chain; vm_compute; reflexivity].
Defined.

(* ===================================================================== *)
(** ** The color-channel mix *)
(* ===================================================================== *)

Lemma Z_eq_float_one (z : Z) : Z_eq_float z f_1_0 = (z =? 1).
Proof.
  assert (E1 : Z.pos 4503599627370496 mod 2 ^ (- (-52)) = 0) by (vm_compute; reflexivity).
  assert (E2 : Z.pos 4503599627370496 / 2 ^ (- (-52)) = 1) by (vm_compute; reflexivity).
  cbv beta iota zeta delta [Z_eq_float f_1_0].
  change (0 <=? -52) with false. cbv iota.
  now rewrite E1, E2.
Qed.

Lemma SFeqb_one (f : spec_float) : SFeqb f f_1_0 = true <-> f = f_1_0.
Proof.
  split; [|intros ->; vm_compute; reflexivity].
  unfold SFeqb, f_1_0. destruct f as [s|s| |s m e]; cbn [SFcompare];
    try discriminate; try (destruct s; discriminate).
  destruct s; [discriminate|].
  destruct (e ?= -52) eqn:E; try discriminate.
  destruct (Pos.compare_cont Eq m 4503599627370496) eqn:M; try discriminate.
  intros _. apply Z.compare_eq in E. apply Pos.compare_eq in M. now subst.
Qed.

(** Equality with 1.0 is numeric: the float 1.0, the integer 1 and [True]
    are equal to it, and nothing else is. *)
Lemma py_eq_float_one (v : pyval) :
  py_eq_float v f_1_0 = true <-> v = PFloat f_1_0 \/ v = PInt 1 \/ v = PBool true.
Proof.
  split.
  - destruct v as [|b|z|f|s|l|c]; cbn [py_eq_float]; try discriminate.
    + destruct b; [auto|]. rewrite Z_eq_float_one. discriminate.
    + rewrite Z_eq_float_one. intros H. apply Z.eqb_eq in H. subst. auto.
    + intros H. apply SFeqb_one in H. subst. auto.
  - intros [->|[->| ->]]; vm_compute; reflexivity.
Qed.

Lemma build_color_channel_channels (d : dict) :
  section_ok d "color_channels" = true ->
  build_color_channel (PDict d) =
  if identity_mix d then Ok None
  else Ok (Some ("eq=red_mul=" ++ py_str (channel d "red")
                 ++ ":green_mul=" ++ py_str (channel d "green")
                 ++ ":blue_mul=" ++ py_str (channel d "blue"))).
Proof.
  unfold section_ok, build_color_channel, identity_mix, channel, option_of, get.
  destruct (lookup "color_channels" d) as [[| | | | | |c]|]; try discriminate;
    intros _; cbn [bind].
  - destruct (lookup "red" c), (lookup "green" c), (lookup "blue" c); reflexivity.
  - reflexivity.
Qed.

(** The test of the builder agrees with [is_one] on the three channels. *)
Lemma identity_mix_is_one (d : dict) :
  identity_mix d = true
  <-> is_one (channel d "red") /\ is_one (channel d "green")
      /\ is_one (channel d "blue").
Proof.
  unfold identity_mix, is_one. rewrite !andb_true_iff, !py_eq_float_one. tauto.
Qed.

(** C3. The color-channel-mix builder yields no stage exactly when red,
    green and blue all equal 1.0, that is, when each is the float 1.0 (or
    the integer 1 or [True], which are equal to it), an absent channel
    counting as 1.0; in particular it yields no stage when the section is
    absent.  For any other combination it yields
    [eq=red_mul=R:green_mul=G:blue_mul=B] with the values of the channels as
    they are supplied. *)
Theorem color_channel_identity (d : dict) :
  section_ok d "color_channels" = true ->
  (build_color_channel (PDict d) = Ok None
   <-> is_one (channel d "red") /\ is_one (channel d "green")
       /\ is_one (channel d "blue"))
  /\ (~ (is_one (channel d "red") /\ is_one (channel d "green")
         /\ is_one (channel d "blue")) ->
      build_color_channel (PDict d)
      = Ok (Some ("eq=red_mul=" ++ py_str (channel d "red")
                  ++ ":green_mul=" ++ py_str (channel d "green")
                  ++ ":blue_mul=" ++ py_str (channel d "blue"))))
  /\ (lookup "color_channels" d = None ->
      build_color_channel (PDict d) = Ok None).
Proof.
  intros H. rewrite (build_color_channel_channels d H), <- identity_mix_is_one.
  split; [|split].
  - destruct (identity_mix d); split; congruence.
  - destruct (identity_mix d); [tauto | reflexivity].
  - intros Hn. unfold identity_mix, channel, option_of. rewrite Hn.
    vm_compute. reflexivity.
Qed.

Lemma color_channel_identity_witness :
  build_color_channel (PDict cfg_red_mix)
  = Ok (Some "eq=red_mul=1.5:green_mul=1.0:blue_mul=2")
  /\ build_color_channel (PDict cfg_unit_mix) = Ok None
  /\ build_color_channel (PDict cfg_eq_enabled) = Ok None.
Proof.
  destruct (color_channel_identity cfg_red_mix) as (_ & Hmix & _);
    [vm_compute; reflexivity|].
  destruct (color_channel_identity cfg_unit_mix) as (Hunit & _ & _);
    [vm_compute; reflexivity|].
  destruct (color_channel_identity cfg_eq_enabled) as (_ & _ & Habsent);
    [vm_compute; reflexivity|].
  split; [|split].
  - rewrite Hmix; [vm_compute; reflexivity|].
    intros [[Hr|[Hr|Hr]] _]; vm_compute in Hr; discriminate.
  - apply Hunit. unfold is_one. repeat split; vm_compute; auto.
  - apply Habsent. vm_compute. reflexivity.
Defined.

(** C9. The identity test of the color-channel mix is numeric, not textual:
    with the integers [red = 1], [green = 1], [blue = 1] the stage is absent,
    although [1] and [1.0] print differently. *)
Theorem color_channel_integer_identity (d c : dict) :
  lookup "color_channels" d = Some (PDict c) ->
  lookup "red" c = Some (PInt 1) ->
  lookup "green" c = Some (PInt 1) ->
  lookup "blue" c = Some (PInt 1) ->
  build_color_channel (PDict d) = Ok None
  /\ py_str (PInt 1) = "1" /\ py_str (PFloat f_1_0) = "1.0".
Proof.
  intros Hc Hr Hg Hb. split; [|split; vm_compute; reflexivity].
  unfold build_color_channel, get. rewrite Hc. cbn [bind].
  now rewrite Hr, Hg, Hb.
Qed.

Lemma color_channel_integer_identity_witness :
  build_color_channel (PDict cfg_integer_channels) = Ok None.
Proof.
  apply (color_channel_integer_identity
           cfg_integer_channels
           (config [("red", PInt 1); ("green", PInt 1); ("blue", PInt 1)]));
    vm_compute; reflexivity.
Defined.

(* ===================================================================== *)
(** ** Separators *)
(* ===================================================================== *)

Lemma present_In (outs : list (option string)) (f : string) :
  In f (present outs) -> exists o, In o outs /\ normalise o = Some f.
Proof.
  induction outs as [|x outs IH]; simpl; [tauto|].
  destruct (normalise x) as [g|] eqn:N.
  - intros [<-|Hin]; [now exists x; auto|].
    destruct (IH Hin) as (o & Ho & Hn). exists o. auto.
  - intros Hin. destruct (IH Hin) as (o & Ho & Hn). exists o. auto.
Qed.

Lemma Forall2_In_r {A B : Type} (R : A -> B -> Prop) (l : list A) (l' : list B) (b : B) :
  Forall2 R l l' -> In b l' -> exists a, In a l /\ R a b.
Proof.
  induction 1 as [|x y l l' Hxy H IH]; simpl; [tauto|].
  intros [<-|Hin]; [now exists x; auto|].
  destruct (IH Hin) as (a & Ha & Hr). exists a. auto.
Qed.

Lemma clean_expressions_present (cfg : pyval) (outs : list (option string)) :
  stage_outputs cfg = Ok outs -> clean_expressions cfg = true ->
  forallb clean (present outs) = true.
Proof.
  intros Ho Hc. apply mapM_Forall2 in Ho.
  unfold clean_expressions in Hc. rewrite forallb_forall in Hc.
  apply forallb_forall. intros f Hf.
  apply present_In in Hf as (o & Hin & Hn).
  destruct (Forall2_In_r _ _ _ _ Ho Hin) as (st & Hst & Hb).
  specialize (Hc st Hst). unfold expression in Hc. now rewrite Hb, Hn in Hc.
Qed.

(** C4, as amended.  The chain never ends with a separator; and it has no
    leading separator and no doubled separator when no stage expression
    brings one of its own, that is, when none begins with a comma or has two
    adjacent commas (the entries of [custom_filters] and the string values
    of the parameters are copied as they are). *)
Theorem chain_separators (cfg : pyval) (chain : string) :
  main cfg = Ok chain ->
  trailing_sep chain = false
  /\ (clean_expressions cfg = true ->
      leading_sep chain = false /\ doubled_sep chain = false).
Proof.
  intros Hm. apply main_stage_outputs in Hm as (outs & Ho & ->).
  pose proof (present_good outs) as G. split.
  - now apply join_trailing.
  - intros Hc. pose proof (clean_expressions_present cfg outs Ho Hc) as Hp. split.
    + apply join_leading; [|exact Hp].
      eapply Forall_impl; [|exact G]. now intros a [Ha _].
    + now apply join_doubled.
Qed.

Lemma chain_separators_witness :
  main cfg_eq_custom
  = Ok "eq=brightness=0.0:contrast=1.0:gamma=1.0:saturation=1.0,hflip,crop=100:100:0:0"
  /\ trailing_sep "eq=brightness=0.0:contrast=1.0:gamma=1.0:saturation=1.0,hflip,crop=100:100:0:0" = false
  /\ leading_sep "eq=brightness=0.0:contrast=1.0:gamma=1.0:saturation=1.0,hflip,crop=100:100:0:0" = false
  /\ doubled_sep "eq=brightness=0.0:contrast=1.0:gamma=1.0:saturation=1.0,hflip,crop=100:100:0:0" = false.
Proof.
  assert (Hm : main cfg_eq_custom
               = Ok "eq=brightness=0.0:contrast=1.0:gamma=1.0:saturation=1.0,hflip,crop=100:100:0:0")
    by (vm_compute; reflexivity).
  destruct (chain_separators _ _ Hm) as [Ht Hc].
  destruct Hc as [Hl Hd]; [vm_compute; reflexivity|].
  repeat split; assumption.
Defined.

(** Entries of [custom_filters] that begin with a comma give the chain a
    leading and a doubled separator. *)
Lemma custom_filters_bring_separators :
  main cfg_custom_commas = Ok ",hflip,,vflip"
  /\ leading_sep ",hflip,,vflip" = true
  /\ doubled_sep ",hflip,,vflip" = true.
Proof. repeat split; vm_compute; reflexivity. Qed.

(* ===================================================================== *)
(** ** Trimming *)
(* ===================================================================== *)

(** C5. The assembler removes the surrounding whitespace of an expression,
    then its trailing commas: the expression is some whitespace, what is
    kept, some commas and some whitespace; what is kept does not begin with
    whitespace and does not end with a comma.  When nothing remains, the
    expression is excluded and the chain is unchanged: no separator is
    added. *)
Theorem add_filter_trims (filters : list string) (frag : string) :
  let kept := rstrip_commas (strip frag) in
  (exists ws1 cs ws2,
      frag = ws1 ++ kept ++ cs ++ ws2
      /\ all_chars is_space ws1 = true /\ all_chars is_comma cs = true
      /\ all_chars is_space ws2 = true
      /\ (cs = "" -> ends_with is_space kept = false))
  /\ starts_with is_space kept = false
  /\ ends_with is_comma kept = false
  /\ (kept <> "" -> add_filter filters (Some frag) = (filters ++ [kept])%list)
  /\ (kept = "" ->
      add_filter filters (Some frag) = filters
      /\ join "," (add_filter filters (Some frag)) = join "," filters).
Proof.
  intros kept.
  destruct (lstrip_by_split is_space frag) as (ws1 & E1 & A1).
  destruct (rstrip_by_split is_space (lstrip_by is_space frag)) as (ws2 & E2 & A2).
  destruct (rstrip_by_split is_comma (strip frag)) as (cs & E3 & A3).
  fold (strip frag) in E2. fold (rstrip_commas (strip frag)) in E3. fold kept in E3.
  assert (Hadd : add_filter filters (Some frag)
                 = match kept with "" => filters | _ => (filters ++ [kept])%list end).
  { unfold kept. destruct frag as [|c s]; [reflexivity|]. reflexivity. }
  split; [|split; [|split; [|split]]].
  - exists ws1, cs, ws2. repeat split; try assumption.
    + rewrite E1 at 1. rewrite E2, E3 at 1. now rewrite !append_assoc.
    + intros ->. rewrite append_nil_r in E3. rewrite <- E3.
      apply rstrip_by_ends.
  - apply rstrip_by_first, rstrip_by_starts, lstrip_by_starts.
  - apply rstrip_by_ends.
  - intros Hk. rewrite Hadd. now destruct kept.
  - intros Hk. rewrite Hadd, Hk. auto.
Qed.

Lemma add_filter_trims_witness :
  add_filter ["boxblur=2"] (Some "  hflip,, ") = ["boxblur=2"; "hflip"]
  /\ add_filter ["boxblur=2"] (Some " ,, ") = ["boxblur=2"]
  /\ join "," (add_filter ["boxblur=2"] (Some " ,, ")) = join "," ["boxblur=2"].
Proof.
  destruct (add_filter_trims ["boxblur=2"] "  hflip,, ") as (_ & _ & _ & H1 & _).
  destruct (add_filter_trims ["boxblur=2"] " ,, ") as (_ & _ & _ & _ & H2).
  split; [apply H1; vm_compute; discriminate|].
  apply H2. vm_compute. reflexivity.
Defined.

(* ===================================================================== *)
(** ** Deblur *)
(* ===================================================================== *)

(** The deblur builder, once the section is known to be the mapping [c]
    with a truthy [enabled]. *)
Lemma build_deblur_enabled (d c : dict) (enabled : pyval) :
  lookup "deblur" d = Some (PDict c) ->
  lookup "enabled" c = Some enabled ->
  truthy enabled = true ->
  build_deblur (PDict d) =
  let method := param c "method" (PStr "convolution") in
  if py_eq_str method "convolution" then
    Ok (Some ("convolution='"
              ++ py_str (param c "kernel" (PStr "-1 -1 -1 -1 9 -1 -1 -1 -1")) ++ "'"))
  else if py_eq_str method "unsharp_multi" then
    n <- range_len (param c "passes" (PInt 2)) ;;
    Ok (Some (join "," (repeat ("unsharp=" ++ py_str (param c "msize" (PInt 5)) ++ ":"
                                ++ py_str (param c "msize" (PInt 5)) ++ ":"
                                ++ py_str (param c "amount" (PFloat f_1_0))) n)))
  else Ok None.
Proof.
  intros Hc He Ht. unfold build_deblur. unfold get at 1. rewrite Hc. cbn [bind].
  rewrite !get_param. cbn [bind]. unfold param at 1. rewrite He, Ht. reflexivity.
Qed.

(** C6. With [deblur.enabled] truthy and a [deblur.method] that is a string
    other than ["convolution"] and ["unsharp_multi"], the deblur builder
    returns absent: no exception is raised, and the stage adds nothing to the
    chain. *)
Theorem deblur_unknown_method (d c : dict) (enabled : pyval) (method : string) :
  lookup "deblur" d = Some (PDict c) ->
  lookup "enabled" c = Some enabled ->
  truthy enabled = true ->
  lookup "method" c = Some (PStr method) ->
  method <> "convolution" ->
  method <> "unsharp_multi" ->
  build_deblur (PDict d) = Ok None
  /\ expression (PDict d) Deblur = None
  /\ (forall filters, add_filter filters None = filters).
Proof.
  intros Hc He Ht Hm Hn1 Hn2.
  assert (Hb : build_deblur (PDict d) = Ok None).
  { rewrite (build_deblur_enabled d c enabled Hc He Ht).
    unfold param. rewrite Hm. cbn [py_eq_str].
    apply String.eqb_neq in Hn1, Hn2. now rewrite Hn1, Hn2. }
  split; [exact Hb|]. split; [|reflexivity].
  unfold expression. cbn [builder]. now rewrite Hb.
Qed.

Lemma deblur_unknown_method_witness :
  build_deblur (PDict cfg_deblur_unknown) = Ok None
  /\ main (PDict cfg_deblur_unknown) = Ok "".
Proof.
  split; [|vm_compute; reflexivity].
  apply (deblur_unknown_method
           cfg_deblur_unknown
           (config [("enabled", PBool true); ("method", PStr "unknown")])
           (PBool true) "unknown");
    try (vm_compute; reflexivity); discriminate.
Defined.

(** The deblur builder with the method ["unsharp_multi"] and an integer
    number of passes. *)
Lemma build_deblur_multi (d c : dict) (enabled : pyval) (passes : Z) :
  lookup "deblur" d = Some (PDict c) ->
  lookup "enabled" c = Some enabled ->
  truthy enabled = true ->
  lookup "method" c = Some (PStr "unsharp_multi") ->
  param c "passes" (PInt 2) = PInt passes ->
  build_deblur (PDict d)
  = Ok (Some (join "," (repeat ("unsharp=" ++ py_str (param c "msize" (PInt 5)) ++ ":"
                                ++ py_str (param c "msize" (PInt 5)) ++ ":"
                                ++ py_str (param c "amount" (PFloat f_1_0)))
                               (Z.to_nat passes)))).
Proof.
  intros Hc He Ht Hm Hp.
  rewrite (build_deblur_enabled d c enabled Hc He Ht).
  unfold param at 1. rewrite Hm. cbn [py_eq_str].
  change ("unsharp_multi" =? "convolution")%string with false.
  change ("unsharp_multi" =? "unsharp_multi")%string with true.
  cbv iota zeta. rewrite Hp. reflexivity.
Qed.

(** C8. With [deblur.enabled] truthy and the method ["unsharp_multi"], the
    deblur stage is [passes] repetitions (2 by default) of [unsharp=M:M:A],
    joined by commas, where M is [msize] (5 by default) and A is [amount]
    (1.0 by default); with [passes = 3], [amount = 1.0], [msize = 5] and
    nothing else enabled the chain is
    ["unsharp=5:5:1.0,unsharp=5:5:1.0,unsharp=5:5:1.0"]. *)
Theorem deblur_unsharp_multi (d c : dict) (enabled : pyval) (passes : Z) :
  lookup "deblur" d = Some (PDict c) ->
  lookup "enabled" c = Some enabled ->
  truthy enabled = true ->
  lookup "method" c = Some (PStr "unsharp_multi") ->
  param c "passes" (PInt 2) = PInt passes ->
  build_deblur (PDict d)
  = Ok (Some (join "," (repeat ("unsharp=" ++ py_str (param c "msize" (PInt 5)) ++ ":"
                                ++ py_str (param c "msize" (PInt 5)) ++ ":"
                                ++ py_str (param c "amount" (PFloat f_1_0)))
                               (Z.to_nat passes))))
  /\ (passes = 3 ->
      param c "msize" (PInt 5) = PInt 5 ->
      param c "amount" (PFloat f_1_0) = PFloat f_1_0 ->
      others_off d Deblur = true ->
      main (PDict d) = Ok "unsharp=5:5:1.0,unsharp=5:5:1.0,unsharp=5:5:1.0").
Proof.
  intros Hc He Ht Hm Hp.
  pose proof (build_deblur_multi d c enabled passes Hc He Ht Hm Hp) as Hb.
  split; [exact Hb|].
  intros -> Hs Ha Hoff. rewrite Hs, Ha in Hb.
  rewrite (others_off_main d Deblur _ Hoff Hb). vm_compute. reflexivity.
Qed.

Lemma deblur_unsharp_multi_witness :
  build_deblur (PDict cfg_unsharp_multi)
  = Ok (Some "unsharp=5:5:1.0,unsharp=5:5:1.0,unsharp=5:5:1.0")
  /\ main (PDict cfg_unsharp_multi)
     = Ok "unsharp=5:5:1.0,unsharp=5:5:1.0,unsharp=5:5:1.0".
Proof.
  destruct (deblur_unsharp_multi
              cfg_unsharp_multi
              (config [("enabled", PBool true); ("method", PStr "unsharp_multi");
                       ("passes", PInt 3); ("amount", PFloat f_1_0);
                       ("msize", PInt 5)])
              (PBool true) 3) as [H1 H2];
    try (vm_compute; reflexivity).
  split.
  - rewrite H1. vm_compute. reflexivity.
  - apply H2; vm_compute; reflexivity.
Defined.

(** C10. With [deblur.enabled] truthy, the method ["unsharp_multi"] and
    [passes] zero or negative, the deblur builder returns the empty string,
    which the assembler drops: the stage adds nothing to the chain, and no
    separator. *)
Theorem deblur_no_passes (d c : dict) (enabled : pyval) (passes : Z) :
  lookup "deblur" d = Some (PDict c) ->
  lookup "enabled" c = Some enabled ->
  truthy enabled = true ->
  lookup "method" c = Some (PStr "unsharp_multi") ->
  lookup "passes" c = Some (PInt passes) ->
  passes <= 0 ->
  build_deblur (PDict d) = Ok (Some "")
  /\ expression (PDict d) Deblur = None
  /\ (forall filters,
         add_filter filters (Some "") = filters
         /\ join "," (add_filter filters (Some "")) = join "," filters).
Proof.
  intros Hc He Ht Hm Hp Hle.
  assert (Hb : build_deblur (PDict d) = Ok (Some "")).
  { assert (Hpar : param c "passes" (PInt 2) = PInt passes)
      by (unfold param; now rewrite Hp).
    rewrite (build_deblur_multi d c enabled passes Hc He Ht Hm Hpar).
    replace (Z.to_nat passes) with 0%nat by lia. reflexivity. }
  split; [exact Hb|]. split; [|intros filters; split; reflexivity].
  unfold expression. cbn [builder]. now rewrite Hb.
Qed.

Lemma deblur_no_passes_witness :
  build_deblur (PDict cfg_no_passes) = Ok (Some "")
  /\ expression (PDict cfg_no_passes) Deblur = None
  /\ main (PDict cfg_no_passes) = Ok "boxblur=2".
Proof.
  destruct (deblur_no_passes
              cfg_no_passes
              (config [("enabled", PBool true); ("method", PStr "unsharp_multi");
                       ("passes", PInt 0)])
              (PBool true) 0) as (H1 & H2 & _);
    try (vm_compute; reflexivity); [lia|].
  split; [exact H1|]. split; [exact H2|]. vm_compute. reflexivity.
Defined.

(* ===================================================================== *)
(** ** Default values *)
(* ===================================================================== *)

Lemma params_absent_section (d : dict) (sec : string) (keys : list string) :
  params_absent d sec keys = true ->
  exists c, lookup sec d = Some (PDict c) /\ absent keys c = true.
Proof.
  unfold params_absent.
  destruct (lookup sec d) as [[| | | | | |c]|]; try discriminate.
  intros H. now exists c.
Qed.

Lemma sub_absent_param (d c : dict) (sec sub : string) (keys : list string) :
  lookup sec d = Some (PDict c) ->
  sub_absent d sec sub keys = true ->
  exists m, param c sub (PDict []) = PDict m /\ absent keys m = true.
Proof.
  unfold sub_absent, option_of, param. intros ->.
  destruct (lookup sub c) as [[| | | | | |m]|]; try discriminate.
  - intros H. now exists m.
  - intros _. exists []. split; [reflexivity|].
    apply forallb_forall. reflexivity.
Qed.

(** The start of a builder of an enabled stage, up to its parameters. *)
Ltac enabled_stage H c Hc Hab :=
  let Hon := fresh "Hon" in
  let Hv := fresh "Hv" in
  let c' := fresh "c" in
  let Hc' := fresh "Hc" in
  apply andb_prop in H as [Hon Hab];
  apply flag_on_get in Hon as (c & Hc & Hv);
  try (apply params_absent_section in Hab as (c' & Hc' & Hab);
       rewrite Hc in Hc'; injection Hc' as <-);
  unfold get at 1; rewrite Hc; cbn [bind];
  rewrite get_param; cbn [bind]; rewrite Hv; cbn [negb].

Ltac default_params Hab :=
  rewrite !get_param; cbn [bind];
  rewrite !(fun k v => absent_param _ _ k v Hab) by (simpl; tauto);
  vm_compute; reflexivity.

Lemma builder_defaults (d : dict) (st : stage) (e : string) :
  enabled_with_defaults d st = true ->
  default_expression st = Some e ->
  builder st (PDict d) = Ok (Some e).
Proof.
  destruct st; cbn [enabled_with_defaults default_expression builder];
    intros H [= <-]; try discriminate.
  - unfold build_eq. enabled_stage H c Hc Hab. default_params Hab.
  - unfold build_unsharp. enabled_stage H c Hc Hab.
    destruct (sub_absent_param d c _ _ _ Hc Hab) as (m & Hm & Hkeys).
    rewrite get_param, Hm. cbn [bind]. default_params Hkeys.
  - unfold build_extra_sharpen. enabled_stage H c Hc Hab.
    destruct (sub_absent_param d c _ _ _ Hc Hab) as (m & Hm & Hkeys).
    rewrite get_param, Hm. cbn [bind]. default_params Hkeys.
  - unfold build_deblur. enabled_stage H c Hc Hab.
    rewrite get_param. cbn [bind].
    rewrite (absent_param _ _ "method" _ Hab) by (simpl; tauto).
    cbn [py_eq_str]. change ("convolution" =? "convolution")%string with true.
    cbv iota. default_params Hab.
  - unfold build_denoise. enabled_stage H c Hc Hab. default_params Hab.
  - unfold build_blur. enabled_stage H c Hc Hab. default_params Hab.
  - unfold build_grain. enabled_stage H c Hc Hab. default_params Hab.
Qed.

(** C7. A stage that is enabled with none of its parameters given produces
    its expression with the documented default values; when nothing else is
    enabled, that expression is the whole chain.  For [eq] the expression is
    ["eq=brightness=0.0:contrast=1.0:gamma=1.0:saturation=1.0"]. *)
Theorem default_values (d : dict) (st : stage) (e : string) :
  enabled_with_defaults d st = true ->
  default_expression st = Some e ->
  builder st (PDict d) = Ok (Some e)
  /\ (others_off d st = true -> main (PDict d) = Ok e)
  /\ (st = Equalize ->
      e = "eq=brightness=0.0:contrast=1.0:gamma=1.0:saturation=1.0").
Proof.
  intros H He. pose proof (builder_defaults d st e H He) as Hb.
  split; [exact Hb|]. split.
  - intros Hoff. rewrite (others_off_main d st _ Hoff Hb).
    destruct st; cbn [default_expression] in He; try discriminate;
      injection He as <-; vm_compute; reflexivity.
  - intros ->. cbn [default_expression] in He. now injection He as <-.
Qed.

Lemma default_values_witness :
  build_eq (PDict cfg_eq_enabled)
  = Ok (Some "eq=brightness=0.0:contrast=1.0:gamma=1.0:saturation=1.0")
  /\ main (PDict cfg_eq_enabled)
     = Ok "eq=brightness=0.0:contrast=1.0:gamma=1.0:saturation=1.0".
Proof.
  destruct (default_values cfg_eq_enabled Equalize
              "eq=brightness=0.0:contrast=1.0:gamma=1.0:saturation=1.0")
    as (H1 & H2 & _); try (vm_compute; reflexivity).
  split; [exact H1 | apply H2; vm_compute; reflexivity].
Defined.

(* ===================================================================== *)
(** ** Exceptions in the builders *)
(* ===================================================================== *)

Lemma mapM_Ok {A B : Type} (f : A -> result B) (l : list A) :
  Forall (fun a => exists b, f a = Ok b) l -> exists bs, mapM f l = Ok bs.
Proof.
  induction 1 as [|a l [b Hb] _ [bs IH]]; simpl.
  - now exists [].
  - rewrite Hb, IH. now exists (b :: bs).
Qed.

Lemma mapM_Raise {A B : Type} (f : A -> result B) (l : list A) (e : exn) :
  mapM f l = Raise e <->
  exists before a after,
    l = (before ++ a :: after)%list /\ f a = Raise e
    /\ Forall (fun x => exists b, f x = Ok b) before.
Proof.
  split.
  - induction l as [|a l IH]; simpl; [discriminate|].
    destruct (f a) as [b|e'] eqn:Fa; cbn [bind].
    + destruct (mapM f l) as [bs|e'']; cbn [bind]; [discriminate|].
      intros [= ->]. destruct (IH eq_refl) as (before & x & after & -> & Hx & Hb).
      exists (a :: before), x, after. repeat split; auto.
      constructor; [now exists b | exact Hb].
    + intros [= ->]. exists [], a, l. repeat split; auto.
  - intros (before & a & after & -> & Ha & Hb).
    induction Hb as [|x before [b Hx] _ IH]; simpl.
    + now rewrite Ha.
    + now rewrite Hx, IH.
Qed.

Lemma all_stages (P : stage -> Prop) : Forall P catalog <-> forall st, P st.
Proof.
  split.
  - intros H st. rewrite Forall_forall in H. apply H.
    destruct st; simpl; tauto.
  - intros H. apply Forall_forall. auto.
Qed.

(** X1. [main] returns a chain exactly when every builder returns: no chain
    is built from the stages that worked.  When [main] raises, the exception
    is that of the first builder, in catalog order, that raises. *)
Theorem main_all_or_nothing (cfg : pyval) :
  ((exists chain, main cfg = Ok chain) <-> (forall st, exists o, builder st cfg = Ok o))
  /\ (forall e,
         main cfg = Raise e <->
         exists before st after,
           catalog = (before ++ st :: after)%list /\ builder st cfg = Raise e
           /\ Forall (fun s => exists o, builder s cfg = Ok o) before).
Proof.
  rewrite main_spec. unfold chain_in_catalog_order, stage_outputs. split.
  - rewrite <- all_stages. split.
    + intros [chain H].
      destruct (mapM (fun st => builder st cfg) catalog) as [outs|] eqn:M;
        cbn [bind] in H; [|discriminate].
      apply mapM_Forall2 in M. clear H.
      induction M as [|st o l l' Hb _ IH]; constructor; [now exists o | exact IH].
    + intros H. destruct (mapM_Ok _ _ H) as [outs ->]. cbn [bind]. eauto.
  - intros e. rewrite <- mapM_Raise.
    destruct (mapM (fun st => builder st cfg) catalog); cbn [bind];
      split; congruence.
Qed.

Lemma get_not_mapping (v : pyval) (k : string) (default : pyval) :
  is_mapping v = false -> get v k default = Raise AttributeError.
Proof. destruct v; simpl; congruence. Qed.

(** X2. A configuration that is not a mapping (an empty file loads as
    [None]) makes every builder raise [AttributeError], and [main] with
    them. *)
Theorem main_needs_mapping (cfg : pyval) :
  is_mapping cfg = false ->
  (forall st, builder st cfg = Raise AttributeError)
  /\ main cfg = Raise AttributeError.
Proof.
  intros H. split.
  - intros st. destruct st; cbn [builder];
      unfold build_eq, build_color_channel, build_unsharp, build_extra_sharpen,
        build_deblur, build_denoise, build_blur, build_grain, build_custom;
      now rewrite (get_not_mapping cfg _ _ H).
  - unfold main, build_eq. now rewrite (get_not_mapping cfg _ _ H).
Qed.

Lemma main_needs_mapping_witness :
  is_mapping PNone = false /\ main PNone = Raise AttributeError.
Proof.
  split; [reflexivity | apply (main_needs_mapping PNone); reflexivity].
Defined.

Lemma main_Ok_builders (cfg : pyval) (chain : string) (st : stage) :
  main cfg = Ok chain -> exists o, builder st cfg = Ok o.
Proof.
  intros H. apply main_stage_outputs in H as (outs & Ho & _).
  apply mapM_Forall2 in Ho.
  assert (F : Forall (fun s => exists o, builder s cfg = Ok o) catalog).
  { induction Ho as [|s o l l' Hb _ IH]; constructor; [now exists o | exact IH]. }
  exact (proj1 (all_stages _) F st).
Qed.

(** X3. A section that is given but is not a mapping (a section left empty
    loads as [None]) makes the builder of its stage raise [AttributeError],
    whatever the flags are, and [main] returns no chain. *)
Theorem section_needs_mapping (d : dict) (st : stage) (v : pyval) :
  st <> Custom ->
  lookup (section_name st) d = Some v ->
  is_mapping v = false ->
  builder st (PDict d) = Raise AttributeError
  /\ (forall chain, main (PDict d) <> Ok chain).
Proof.
  intros Hst Hl Hv.
  assert (Hb : builder st (PDict d) = Raise AttributeError).
  { destruct st; cbn [builder section_name] in *; try congruence;
      unfold build_eq, build_color_channel, build_unsharp, build_extra_sharpen,
        build_deblur, build_denoise, build_blur, build_grain;
      unfold get at 1; rewrite Hl; cbn [bind];
      now rewrite (get_not_mapping v _ _ Hv). }
  split; [exact Hb|].
  intros chain Hm. destruct (main_Ok_builders _ _ st Hm) as [o Ho]. congruence.
Qed.

Lemma section_needs_mapping_witness :
  build_eq (PDict cfg_eq_null) = Raise AttributeError
  /\ (forall chain, main (PDict cfg_eq_null) <> Ok chain).
Proof.
  apply (section_needs_mapping cfg_eq_null Equalize PNone);
    [discriminate | reflexivity | reflexivity].
Defined.

Lemma main_all_or_nothing_witness :
  main (PDict cfg_eq_null) = Raise AttributeError.
Proof.
  apply (proj2 (main_all_or_nothing (PDict cfg_eq_null))).
  exists [], Equalize,
    [ColorChannelMix; SharpenMain; SharpenExtra; Deblur; Denoise; Blur; Grain; Custom].
  split; [reflexivity|]. split; [reflexivity | constructor].
Defined.

(* ===================================================================== *)
(** ** The empty chain, and the expressions kept as they are *)
(* ===================================================================== *)

Lemma present_nil (outs : list (option string)) :
  present outs = [] <-> Forall (fun o => normalise o = None) outs.
Proof.
  induction outs as [|o outs IH]; simpl.
  - split; auto.
  - destruct (normalise o) eqn:N; split.
    + discriminate.
    + intros H. inversion H; congruence.
    + intros H. constructor; [exact N | now apply IH].
    + intros H. inversion H. now apply IH.
Qed.

Lemma join_nil_iff (l : list string) :
  Forall (fun f => f <> "" /\ trailing_sep f = false) l ->
  (join "," l = "" <-> l = []).
Proof.
  intros G. split; [|now intros ->].
  destruct l as [|f l]; [reflexivity|].
  intros E. inversion G as [|? ? [Hf _] _]; subst.
  now apply (join_nonempty "," f l) in Hf.
Qed.

(** X4. The chain is the empty string exactly when no stage has an
    expression: a chain that is not empty never comes from absent stages, and
    a stage with an expression never gives an empty chain. *)
Theorem chain_empty_iff (cfg : pyval) (chain : string) :
  main cfg = Ok chain ->
  (chain = "" <-> forall st, expression cfg st = None).
Proof.
  intros Hm. apply main_stage_outputs in Hm as (outs & Ho & ->).
  rewrite (join_nil_iff _ (present_good outs)), present_nil, <- all_stages.
  apply mapM_Forall2 in Ho. unfold expression.
  induction Ho as [|st o l l' Hb _ IH]; [split; constructor|].
  split; intros H; inversion H; subst; constructor;
    try (now apply IH); rewrite Hb in *; assumption.
Qed.

Lemma chain_empty_iff_witness :
  main (PDict cfg_no_passes) = Ok "boxblur=2"
  /\ ("boxblur=2" = "" <-> forall st, expression (PDict cfg_no_passes) st = None).
Proof.
  assert (H : main (PDict cfg_no_passes) = Ok "boxblur=2") by (vm_compute; reflexivity).
  split; [exact H | exact (chain_empty_iff _ _ H)].
Defined.

Lemma length_append (a b : string) :
  String.length (a ++ b) = (String.length a + String.length b)%nat.
Proof. induction a as [|c a IH]; simpl; [reflexivity | now rewrite IH]. Qed.

Lemma append_same_length (a b : string) :
  String.length (a ++ b) = String.length a -> b = "".
Proof.
  rewrite length_append. destruct b; [reflexivity|]. simpl. lia.
Qed.

Lemma lstrip_by_length p (s : string) :
  (String.length (lstrip_by p s) <= String.length s)%nat.
Proof.
  destruct (lstrip_by_split p s) as (pre & E & _).
  rewrite E at 2. rewrite length_append. lia.
Qed.

Lemma rstrip_by_length p (s : string) :
  (String.length (rstrip_by p s) <= String.length s)%nat.
Proof.
  destruct (rstrip_by_split p s) as (suf & E & _).
  rewrite E at 2. rewrite length_append. lia.
Qed.

Lemma lstrip_by_id p (s : string) :
  starts_with p s = false -> lstrip_by p s = s.
Proof. destruct s as [|c s]; simpl; [reflexivity | now intros ->]. Qed.

Lemma rstrip_by_id p (s : string) :
  ends_with p s = false -> rstrip_by p s = s.
Proof.
  induction s as [|c s IH]; simpl; [reflexivity|].
  destruct s as [|c' s'].
  - simpl. now intros ->.
  - intros H. rewrite (IH H). reflexivity.
Qed.

Lemma rstrip_by_full p (s : string) :
  String.length (rstrip_by p s) = String.length s -> ends_with p s = false.
Proof.
  intros H. destruct (rstrip_by_split p s) as (suf & E & _).
  assert (suf = "").
  { apply (append_same_length (rstrip_by p s)). now rewrite <- E. }
  subst suf. rewrite append_nil_r in E. rewrite E. apply rstrip_by_ends.
Qed.

Lemma lstrip_by_full p (s : string) :
  String.length (lstrip_by p s) = String.length s -> starts_with p s = false.
Proof.
  destruct s as [|c s]; simpl; [reflexivity|].
  destruct (p c) eqn:Hc; [|reflexivity].
  pose proof (lstrip_by_length p s). lia.
Qed.

(** The assembler keeps a string as it is exactly when it is trimmed. *)
Lemma normalise_id_iff (frag : string) :
  rstrip_commas (strip frag) = frag /\ frag <> "" <-> trimmed frag = true.
Proof.
  unfold trimmed, rstrip_commas, strip. split.
  - intros [E Hne].
    pose proof (rstrip_by_length is_comma (rstrip_by is_space (lstrip_by is_space frag))) as L1.
    pose proof (rstrip_by_length is_space (lstrip_by is_space frag)) as L2.
    pose proof (lstrip_by_length is_space frag) as L3.
    rewrite E in L1.
    assert (S1 : starts_with is_space frag = false) by (apply lstrip_by_full; lia).
    rewrite (lstrip_by_id _ _ S1) in *.
    assert (S2 : ends_with is_space frag = false) by (apply rstrip_by_full; lia).
    rewrite (rstrip_by_id _ _ S2) in *.
    assert (S3 : ends_with is_comma frag = false) by (apply rstrip_by_full; now rewrite E).
    rewrite S1, S2, S3. destruct frag; [congruence | reflexivity].
  - intros H. repeat (apply andb_prop in H as [H ?H]).
    apply negb_true_iff in H, H0, H1, H2.
    rewrite (lstrip_by_id _ _ H2), (rstrip_by_id _ _ H1), (rstrip_by_id _ _ H0).
    split; [reflexivity|]. intros ->. discriminate.
Qed.

(** X5. [add_filter] appends an expression unchanged exactly when the
    expression is not empty, has no whitespace at either end and no comma at
    its end. *)
Theorem add_filter_verbatim_iff (filters : list string) (frag : string) :
  add_filter filters (Some frag) = (filters ++ [frag])%list <-> trimmed frag = true.
Proof.
  rewrite <- normalise_id_iff, add_filter_present. simpl present.
  destruct (rstrip_commas (strip frag)) as [|c t] eqn:K.
  - rewrite app_nil_r. split.
    + intros H. apply (f_equal (@List.length string)) in H.
      rewrite length_app in H. simpl in H. lia.
    + intros [<- H]. congruence.
  - split.
    + intros H. apply app_inv_head in H. injection H as <-. split; [reflexivity | discriminate].
    + intros [<- _]. reflexivity.
Qed.

Lemma add_filter_verbatim_iff_witness :
  add_filter ["boxblur=2"] (Some "noise=alls=4:allf=p") = ["boxblur=2"; "noise=alls=4:allf=p"]
  /\ add_filter ["boxblur=2"] (Some "hflip ,") <> ["boxblur=2"; "hflip ,"].
Proof.
  split.
  - apply (proj2 (add_filter_verbatim_iff ["boxblur=2"] "noise=alls=4:allf=p")).
    vm_compute. reflexivity.
  - intros H. apply (proj1 (add_filter_verbatim_iff ["boxblur=2"] "hflip ,")) in H.
    vm_compute in H. discriminate.
Defined.

(* ===================================================================== *)
(** ** What the builders read *)
(* ===================================================================== *)

Lemma get_lookup (d d' : dict) (k : string) (default : pyval) :
  lookup k d = lookup k d' -> get (PDict d) k default = get (PDict d') k default.
Proof. intros H. unfold get. now rewrite H. Qed.

Lemma builder_frame (d d' : dict) (st : stage) :
  lookup (section_name st) d = lookup (section_name st) d' ->
  builder st (PDict d) = builder st (PDict d').
Proof.
  intros H. destruct st; cbn [builder section_name] in *;
    unfold build_eq, build_color_channel, build_unsharp, build_extra_sharpen,
      build_deblur, build_denoise, build_blur, build_grain, build_custom;
    now rewrite (get_lookup d d' _ _ H).
Qed.

Lemma main_frame (d d' : dict) :
  (forall st, lookup (section_name st) d = lookup (section_name st) d') ->
  main (PDict d) = main (PDict d').
Proof.
  intros H. rewrite !main_spec. unfold chain_in_catalog_order, stage_outputs, catalog.
  cbn [mapM].
  now rewrite (builder_frame d d' Equalize), (builder_frame d d' ColorChannelMix),
    (builder_frame d d' SharpenMain), (builder_frame d d' SharpenExtra),
    (builder_frame d d' Deblur), (builder_frame d d' Denoise),
    (builder_frame d d' Blur), (builder_frame d d' Grain),
    (builder_frame d d' Custom) by apply H.
Qed.

Lemma lookup_app (k : string) (d1 d2 : dict) :
  lookup k (d1 ++ d2) = match lookup k d1 with Some v => Some v | None => lookup k d2 end.
Proof.
  induction d1 as [|[k' v] d1 IH]; simpl; [reflexivity|].
  destruct k'; auto. destruct (String.eqb s k); auto.
Qed.

Lemma lookup_other (k : string) (key v : pyval) (d : dict) :
  key <> PStr k -> lookup k ((key, v) :: d) = lookup k d.
Proof.
  intros H. simpl. destruct key; auto.
  destruct (String.eqb s k) eqn:E; auto.
  apply String.eqb_eq in E. congruence.
Qed.

(** X6. Each builder reads the section of its stage and nothing else, and
    [main] reads the eight sections and nothing else: an entry of the
    configuration under any other key, wherever it stands, does not change
    the chain. *)
Theorem unknown_keys_ignored (d1 d2 : dict) (key v : pyval) :
  (forall st, key <> PStr (section_name st)) ->
  (forall st, builder st (PDict (d1 ++ (key, v) :: d2)) = builder st (PDict (d1 ++ d2)))
  /\ main (PDict (d1 ++ (key, v) :: d2)) = main (PDict (d1 ++ d2)).
Proof.
  intros H.
  assert (L : forall st, lookup (section_name st) (d1 ++ (key, v) :: d2)
                         = lookup (section_name st) (d1 ++ d2)).
  { intros st. rewrite !lookup_app. now rewrite (lookup_other _ _ _ _ (H st)). }
  split; [intros st; apply builder_frame, L | apply main_frame, L].
Qed.

Lemma unknown_keys_ignored_witness :
  main (PDict (config [("eq", PDict (config [("enabled", PBool true)]))]
               ++ (PStr "sharpness", PInt 3) :: config []))
  = main (PDict (config [("eq", PDict (config [("enabled", PBool true)]))] ++ config [])).
Proof.
  apply (unknown_keys_ignored
           (config [("eq", PDict (config [("enabled", PBool true)]))]) (config [])
           (PStr "sharpness") (PInt 3)).
  intros st; destruct st; discriminate.
Defined.

(** The builders of the stages with parameters read their mapping through
    its lookups only. *)
Lemma builder_section_ext (d d' c c' : dict) (st : stage) :
  st <> Custom ->
  lookup (section_name st) d = Some (PDict c) ->
  lookup (section_name st) d' = Some (PDict c') ->
  (forall k, lookup k c = lookup k c') ->
  builder st (PDict d) = builder st (PDict d').
Proof.
  intros Hst Hc Hc' H.
  destruct st; cbn [builder section_name] in *; try congruence;
    unfold build_eq, build_color_channel, build_unsharp, build_extra_sharpen,
      build_deblur, build_denoise, build_blur, build_grain;
    unfold get at 1; rewrite Hc; symmetry; unfold get at 1; rewrite Hc'; cbn [bind];
    now rewrite !(get_ext c c' H).
Qed.

(** X7. The order of the keys inside a section does not matter: when the
    mapping of a stage's section is replaced by one with the same entries in
    another order, the builder of the stage returns the same result. *)
Theorem section_key_order (d d' c c' : dict) (st : stage) :
  st <> Custom ->
  lookup (section_name st) d = Some (PDict c) ->
  lookup (section_name st) d' = Some (PDict c') ->
  NoDup (map fst c) ->
  Permutation c c' ->
  builder st (PDict d) = builder st (PDict d').
Proof.
  intros Hst Hc Hc' N P.
  apply (builder_section_ext d d' c c' st Hst Hc Hc').
  intros k. now apply lookup_perm.
Qed.

Lemma section_key_order_witness :
  build_grain (PDict cfg_grain) = build_grain (PDict cfg_grain_swapped).
Proof.
  apply (section_key_order
           cfg_grain cfg_grain_swapped
           (config [("enabled", PBool true); ("strength", PInt 8); ("frequency", PStr "t")])
           (config [("strength", PInt 8); ("enabled", PBool true); ("frequency", PStr "t")])
           Grain).
  - discriminate.
  - reflexivity.
  - reflexivity.
  - simpl. repeat constructor; simpl; intuition discriminate.
  - apply perm_swap.
Defined.

(* ===================================================================== *)
(** ** The custom filters *)
(* ===================================================================== *)

Lemma mapM_str_item_map (l : list string) : mapM str_item (map PStr l) = Ok l.
Proof. induction l as [|s l IH]; simpl; [reflexivity | now rewrite IH]. Qed.

Lemma build_custom_value (d : dict) (v : pyval) :
  lookup "custom_filters" d = Some v ->
  truthy v = true ->
  build_custom (PDict d) = items <- join_items v ;; Ok (Some (join "," items)).
Proof. intros Hl Ht. unfold build_custom, get. rewrite Hl. cbn [bind]. now rewrite Ht. Qed.

(** X8. A list of strings under [custom_filters] is joined with commas, the
    entries as they are and in their order; when nothing else is enabled and
    the joined string is trimmed, it is the chain. *)
Theorem custom_list_verbatim (d : dict) (l : list string) :
  lookup "custom_filters" d = Some (PList (map PStr l)) ->
  l <> [] ->
  build_custom (PDict d) = Ok (Some (join "," l))
  /\ (others_off d Custom = true -> trimmed (join "," l) = true ->
      main (PDict d) = Ok (join "," l)).
Proof.
  intros Hl Hne.
  assert (Hb : build_custom (PDict d) = Ok (Some (join "," l))).
  { rewrite (build_custom_value d _ Hl) by now destruct l.
    cbn [join_items]. now rewrite mapM_str_item_map. }
  split; [exact Hb|]. intros Hoff Ht.
  rewrite (others_off_main d Custom _ Hoff Hb : main (PDict d) = _).
  apply normalise_id_iff in Ht as [E Hn]. cbn [present normalise]. rewrite E.
  now destruct (join "," l).
Qed.

Lemma custom_list_verbatim_witness :
  main (PDict (config [("custom_filters", PList (map PStr ["crop=100:100:0:0"; "hflip"]))]))
  = Ok "crop=100:100:0:0,hflip".
Proof.
  apply (custom_list_verbatim
           (config [("custom_filters", PList (map PStr ["crop=100:100:0:0"; "hflip"]))])
           ["crop=100:100:0:0"; "hflip"]);
    try (vm_compute; reflexivity); discriminate.
Defined.

Lemma join_chars_length (s : string) :
  s <> "" ->
  String.length (join "," (chars s)) = (2 * String.length s - 1)%nat.
Proof.
  induction s as [|c s IH]; [congruence|]. intros _.
  destruct s as [|c' s'].
  - reflexivity.
  - change (chars (String c (String c' s')))
      with (String c "" :: chars (String c' s')).
    remember (String c' s') as t eqn:T.
    assert (Hc : chars t <> []) by (subst t; discriminate).
    rewrite (join_cons_app "," _ _ Hc), !length_append, IH by (subst t; discriminate).
    subst t. simpl. lia.
Qed.

(** X9. A string under [custom_filters], where a list is expected, is not
    used as one filter: its characters are joined with commas, which gives a
    string of [2n - 1] characters for one of [n], different from it when
    [n] is 2 or more. *)
Theorem custom_string_split (d : dict) (s : string) :
  lookup "custom_filters" d = Some (PStr s) ->
  s <> "" ->
  build_custom (PDict d) = Ok (Some (join "," (chars s)))
  /\ String.length (join "," (chars s)) = (2 * String.length s - 1)%nat
  /\ ((2 <= String.length s)%nat -> join "," (chars s) <> s).
Proof.
  intros Hl Hne. split; [|split].
  - rewrite (build_custom_value d _ Hl); [reflexivity|].
    simpl. destruct s; [congruence | reflexivity].
  - now apply join_chars_length.
  - intros H2 E. apply (f_equal String.length) in E.
    rewrite (join_chars_length s Hne) in E. lia.
Qed.

Lemma custom_string_split_witness :
  build_custom (PDict (config [("custom_filters", PStr "hflip")])) = Ok (Some "h,f,l,i,p").
Proof.
  apply (custom_string_split (config [("custom_filters", PStr "hflip")]) "hflip");
    [reflexivity | discriminate].
Defined.

Lemma mapM_str_item_ok {A : Type} (g : A -> pyval) (l : list A) :
  forallb (fun x => is_str (g x)) l = true ->
  exists ss, mapM (fun x => str_item (g x)) l = Ok ss.
Proof.
  induction l as [|a l IH]; simpl; [now exists []|].
  intros H. apply andb_prop in H as [Ha Hl].
  destruct (IH Hl) as [ss ->]. destruct (g a); try discriminate.
  simpl. eauto.
Qed.

Lemma mapM_str_item_raise {A : Type} (g : A -> pyval) (l : list A) :
  forallb (fun x => is_str (g x)) l = false ->
  mapM (fun x => str_item (g x)) l = Raise TypeError.
Proof.
  induction l as [|a l IH]; simpl; [discriminate|].
  destruct (g a); simpl; try reflexivity.
  intros H. now rewrite (IH H).
Qed.

Lemma join_items_joinable (v : pyval) :
  (joinable v = true -> exists items, join_items v = Ok items)
  /\ (joinable v = false -> join_items v = Raise TypeError).
Proof.
  destruct v as [|b|z|f|s|l|kvs]; simpl; split; try discriminate; try reflexivity;
    intros H.
  - eauto.
  - apply (mapM_str_item_ok (fun x => x) l H).
  - apply (mapM_str_item_raise (fun x => x) l H).
  - apply (mapM_str_item_ok fst kvs H).
  - apply (mapM_str_item_raise fst kvs H).
Qed.

(** X10. A value of [custom_filters] that is not empty (truthy) makes the
    builder raise [TypeError] exactly when it cannot be joined: a number or
    [True], a list with an entry that is not a string, a dict with a key that
    is not a string.  Otherwise the builder returns an expression. *)
Theorem custom_type_error (d : dict) (v : pyval) :
  lookup "custom_filters" d = Some v ->
  truthy v = true ->
  (build_custom (PDict d) = Raise TypeError <-> joinable v = false)
  /\ (joinable v = true -> exists s, build_custom (PDict d) = Ok (Some s)).
Proof.
  intros Hl Ht. rewrite (build_custom_value d v Hl Ht).
  destruct (join_items_joinable v) as [Hok Hraise].
  destruct (joinable v).
  - destruct (Hok eq_refl) as [items ->]. cbn [bind].
    split; [split; discriminate | eauto].
  - rewrite (Hraise eq_refl). cbn [bind]. split; [tauto | discriminate].
Qed.

Lemma custom_type_error_witness :
  build_custom (PDict (config [("custom_filters", PList [PStr "hflip"; PInt 3])]))
  = Raise TypeError.
Proof.
  apply (proj1 (custom_type_error
                  (config [("custom_filters", PList [PStr "hflip"; PInt 3])])
                  (PList [PStr "hflip"; PInt 3]) eq_refl eq_refl)).
  reflexivity.
Defined.

(* ===================================================================== *)
(** ** The passes of deblur *)
(* ===================================================================== *)

(** X11. With the method ["unsharp_multi"], a [passes] that is not an
    integer (a float, a string, a list) makes the deblur builder raise
    [TypeError]; a boolean counts as an integer: [True] gives one pass,
    [False] none. *)
Theorem deblur_passes_type (d c : dict) (enabled : pyval) :
  lookup "deblur" d = Some (PDict c) ->
  lookup "enabled" c = Some enabled ->
  truthy enabled = true ->
  lookup "method" c = Some (PStr "unsharp_multi") ->
  (is_count (param c "passes" (PInt 2)) = false ->
   build_deblur (PDict d) = Raise TypeError)
  /\ (param c "passes" (PInt 2) = PBool true ->
      build_deblur (PDict d)
      = Ok (Some ("unsharp=" ++ py_str (param c "msize" (PInt 5)) ++ ":"
                  ++ py_str (param c "msize" (PInt 5)) ++ ":"
                  ++ py_str (param c "amount" (PFloat f_1_0)))))
  /\ (param c "passes" (PInt 2) = PBool false ->
      build_deblur (PDict d) = Ok (Some "")).
Proof.
  intros Hc He Ht Hm.
  assert (Hb : build_deblur (PDict d)
               = n <- range_len (param c "passes" (PInt 2)) ;;
                 Ok (Some (join "," (repeat ("unsharp=" ++ py_str (param c "msize" (PInt 5)) ++ ":"
                                             ++ py_str (param c "msize" (PInt 5)) ++ ":"
                                             ++ py_str (param c "amount" (PFloat f_1_0))) n)))).
  { rewrite (build_deblur_enabled d c enabled Hc He Ht).
    unfold param at 1. rewrite Hm. cbn [py_eq_str].
    change ("unsharp_multi" =? "convolution")%string with false.
    change ("unsharp_multi" =? "unsharp_multi")%string with true.
    reflexivity. }
  rewrite Hb. split; [|split].
  - destruct (param c "passes" (PInt 2)); simpl; try discriminate; reflexivity.
  - intros ->. reflexivity.
  - intros ->. reflexivity.
Qed.

Lemma deblur_passes_type_witness :
  build_deblur (PDict cfg_float_passes) = Raise TypeError.
Proof.
  apply (deblur_passes_type
           cfg_float_passes
           (config [("enabled", PBool true); ("method", PStr "unsharp_multi");
                    ("passes", PFloat f_2_0)])
           (PBool true));
    reflexivity.
Defined.

(* ===================================================================== *)
(** ** The stages with a flag *)
(* ===================================================================== *)

Lemma rstrip_by_app_keep p (a b : string) :
  a <> "" -> ends_with p a = false -> rstrip_by p (a ++ b) = a ++ rstrip_by p b.
Proof.
  induction a as [|c a IH]; [congruence|]. intros _ He.
  destruct a as [|c' a'].
  - simpl in *. destruct (rstrip_by p b); [now rewrite He | reflexivity].
  - change (ends_with p (String c' a') = false) in He.
    change (String c (String c' a') ++ b) with (String c (String c' a' ++ b)).
    change (rstrip_by p (String c (String c' a' ++ b)))
      with (match rstrip_by p (String c' a' ++ b) with
            | "" => if p c then "" else String c ""
            | t' => String c t'
            end).
    rewrite IH by (discriminate || exact He). reflexivity.
Qed.

(** The assembler keeps an expression that begins with a trimmed text, and
    that text with it. *)
Lemma normalise_prefix (p rest : string) :
  trimmed p = true ->
  normalise (Some (p ++ rest))
  = Some (p ++ rstrip_commas (rstrip_by is_space rest)).
Proof.
  intros H. unfold trimmed in H. repeat (apply andb_prop in H as [H ?H]).
  apply negb_true_iff in H, H0, H1, H2.
  assert (Hne : p <> "") by (intros ->; discriminate).
  unfold normalise, rstrip_commas, strip.
  rewrite lstrip_by_id by (rewrite starts_with_app; now destruct p).
  rewrite (rstrip_by_app_keep is_space p rest Hne H1).
  rewrite (rstrip_by_app_keep is_comma p _ Hne H0).
  destruct p; [congruence | reflexivity].
Qed.

Ltac unbind :=
  repeat lazymatch goal with
         | |- bind ?r _ = _ -> _ => destruct r; cbn [bind]; [|discriminate]
         | |- (if ?b then _ else _) = _ -> _ => destruct b; [discriminate|]
         end.

Lemma builder_prefix (cfg : pyval) (st : stage) (p s : string) :
  stage_prefix st = Some p ->
  builder st cfg = Ok (Some s) ->
  exists rest, s = p ++ rest.
Proof.
  destruct st; cbn [stage_prefix builder]; intros [= <-];
    unfold build_eq, build_color_channel, build_unsharp, build_extra_sharpen,
      build_denoise, build_blur, build_grain;
    unbind; intros [= <-]; eexists; reflexivity.
Qed.

Lemma stage_prefix_trimmed (st : stage) (p : string) :
  stage_prefix st = Some p -> trimmed p = true.
Proof. destruct st; cbn [stage_prefix]; intros [= <-]; reflexivity. Qed.

Lemma flag_off_false (d : dict) (sec key : string) :
  section_ok d sec = true ->
  flag_off d sec key = false ->
  exists c, lookup sec d = Some (PDict c)
            /\ truthy (param c key (PBool false)) = true.
Proof.
  unfold flag_off, section_ok, option_of, param.
  destruct (lookup sec d) as [[| | | | | |c]|]; simpl; try discriminate.
  intros _ H. exists c. split; [reflexivity|].
  destruct (lookup key c); [now apply negb_false_iff in H | discriminate].
Qed.

Lemma sub_ok_param (d c : dict) (sec sub : string) :
  lookup sec d = Some (PDict c) ->
  sub_ok d sec sub = true ->
  exists m, param c sub (PDict []) = PDict m.
Proof.
  unfold sub_ok, option_of, param. intros ->.
  destruct (lookup sub c) as [[| | | | | |m]|]; try discriminate; eauto.
Qed.

(** The start of the builder of a stage whose flag is on. *)
Ltac flag_is_on Hs H c Hc :=
  let Hv := fresh "Hv" in
  destruct (flag_off_false _ _ _ Hs H) as (c & Hc & Hv);
  unfold get at 1; rewrite Hc; cbn [bind];
  rewrite get_param; cbn [bind]; rewrite Hv; cbn [negb];
  rewrite ?get_param; cbn [bind].

Lemma identity_mix_units (d : dict) :
  identity_mix d
  = unit_channel d "red" && unit_channel d "green" && unit_channel d "blue".
Proof.
  unfold identity_mix, channel, unit_channel.
  destruct (option_of d "color_channels" "red"),
    (option_of d "color_channels" "green"),
    (option_of d "color_channels" "blue"); reflexivity.
Qed.

Lemma builder_on (d : dict) (st : stage) (p : string) :
  stage_prefix st = Some p ->
  ready d st = true ->
  stage_off d st = false ->
  exists s, builder st (PDict d) = Ok (Some s).
Proof.
  unfold ready.
  destruct st; cbn [stage_prefix builder section_name stage_off];
    intros [= <-] Hr H; apply andb_prop in Hr as [Hs Hsub].
  - unfold build_eq. flag_is_on Hs H c Hc. eauto.
  - rewrite (build_color_channel_channels d Hs).
    rewrite identity_mix_units. rewrite Hs in H.
    cbn [andb] in H. rewrite H. eauto.
  - unfold build_unsharp. flag_is_on Hs H c Hc.
    destruct (sub_ok_param d c _ _ Hc Hsub) as [m ->]. cbn [bind].
    rewrite ?get_param. cbn [bind]. eauto.
  - unfold build_extra_sharpen. flag_is_on Hs H c Hc.
    destruct (sub_ok_param d c _ _ Hc Hsub) as [m ->]. cbn [bind].
    rewrite ?get_param. cbn [bind]. eauto.
  - unfold build_denoise. flag_is_on Hs H c Hc. eauto.
  - unfold build_blur. flag_is_on Hs H c Hc. eauto.
  - unfold build_grain. flag_is_on Hs H c Hc. eauto.
Qed.

(** X12. For the stages equalize, color-channel-mix, sharpen-main,
    sharpen-extra, denoise, blur and grain: an expression of the stage in the
    chain always begins with the name of its filter; and when the sections
    are mappings (or absent), the stage has no expression exactly when it is
    switched off.  A stage that is switched on is never lost in the
    trimming. *)
Theorem stage_expression_flag (d : dict) (st : stage) (p : string) :
  stage_prefix st = Some p ->
  (forall f, expression (PDict d) st = Some f -> exists rest, f = p ++ rest)
  /\ (ready d st = true ->
      (expression (PDict d) st = None <-> stage_off d st = true)).
Proof.
  intros Hp. pose proof (stage_prefix_trimmed st p Hp) as Ht. split.
  - unfold expression. intros f.
    destruct (builder st (PDict d)) as [[s|]|] eqn:Hb; try discriminate.
    destruct (builder_prefix _ _ _ _ Hp Hb) as [rest ->].
    rewrite (normalise_prefix p rest Ht). intros [= <-]. eauto.
  - intros Hr. split.
    + intros He. destruct (stage_off d st) eqn:Hoff; [reflexivity|].
      destruct (builder_on d st p Hp Hr Hoff) as [s Hb].
      destruct (builder_prefix _ _ _ _ Hp Hb) as [rest ->].
      unfold expression in He. rewrite Hb, (normalise_prefix p rest Ht) in He.
      discriminate.
    + intros Hoff. unfold expression. now rewrite (stage_off_absent d st Hoff).
Qed.

Lemma stage_expression_flag_witness :
  ready cfg_sharpen_yes SharpenMain = true
  /\ stage_off cfg_sharpen_yes SharpenMain = false
  /\ expression (PDict cfg_sharpen_yes) SharpenMain <> None
  /\ (forall f, expression (PDict cfg_sharpen_yes) SharpenMain = Some f ->
                exists rest, f = "unsharp=" ++ rest).
Proof.
  destruct (stage_expression_flag cfg_sharpen_yes SharpenMain "unsharp=" eq_refl)
    as [H1 H2].
  split; [reflexivity|]. split; [reflexivity|]. split; [|exact H1].
  intros He. apply (proj1 (H2 eq_refl)) in He. vm_compute in He. discriminate.
Defined.

(* ===================================================================== *)
(** ** The values of the channels, and the start of the chain *)
(* ===================================================================== *)

(** X13. The color-channel-mix is absent exactly when each channel is
    absent or is the float 1.0, the integer 1 or [True]: a string such as
    ["1.0"] or ["1"], or a float next to 1.0, gives the stage. *)
Theorem color_identity_values (d : dict) :
  section_ok d "color_channels" = true ->
  (build_color_channel (PDict d) = Ok None
   <-> is_one (channel d "red") /\ is_one (channel d "green")
       /\ is_one (channel d "blue")).
Proof.
  intros H. rewrite (build_color_channel_channels d H).
  unfold is_one. rewrite <- !py_eq_float_one. unfold identity_mix.
  destruct (py_eq_float (channel d "red") f_1_0),
    (py_eq_float (channel d "green") f_1_0),
    (py_eq_float (channel d "blue") f_1_0); cbn [andb];
    split; try discriminate; try tauto; intros (? & ? & ?); congruence.
Qed.

Lemma color_identity_values_witness :
  build_color_channel (PDict cfg_red_true) = Ok None.
Proof.
  apply (proj2 (color_identity_values cfg_red_true eq_refl)).
  unfold is_one. repeat split; vm_compute; auto.
Defined.

Lemma expression_prefix (cfg : pyval) (st : stage) (p f : string) :
  stage_prefix st = Some p ->
  expression cfg st = Some f ->
  exists rest, f = p ++ rest.
Proof.
  intros Hp. unfold expression.
  destruct (builder st cfg) as [[s|]|] eqn:Hb; try discriminate.
  destruct (builder_prefix _ _ _ _ Hp Hb) as [rest ->].
  rewrite (normalise_prefix p rest (stage_prefix_trimmed st p Hp)).
  intros [= <-]. eauto.
Qed.

Lemma build_deblur_forms (cfg : pyval) (s : string) :
  build_deblur cfg = Ok (Some s) ->
  s = "" \/ (exists rest, s = "convolution='" ++ rest)
  \/ (exists rest, s = "unsharp=" ++ rest).
Proof.
  unfold build_deblur.
  destruct (get cfg "deblur" (PDict [])) as [c|]; cbn [bind]; [|discriminate].
  destruct (get c "enabled" (PBool false)) as [en|]; cbn [bind]; [|discriminate].
  destruct (negb (truthy en)); [discriminate|].
  destruct (get c "method" (PStr "convolution")) as [method|]; cbn [bind]; [|discriminate].
  destruct (py_eq_str method "convolution").
  - destruct (get c "kernel" _) as [k|]; cbn [bind]; [|discriminate].
    intros [= <-]. right. left. eexists. reflexivity.
  - destruct (py_eq_str method "unsharp_multi"); [|discriminate].
    destruct (get c "passes" _) as [passes|]; cbn [bind]; [|discriminate].
    destruct (get c "amount" _) as [amount|]; cbn [bind]; [|discriminate].
    destruct (get c "msize" _) as [msize|]; cbn [bind]; [|discriminate].
    destruct (range_len passes) as [[|n]|]; cbn [bind]; [| |discriminate];
      intros [= <-].
    + now left.
    + right. right. cbn [repeat].
      match goal with
      | |- context [match ?l with [] => _ | _ :: _ => _ end] => destruct l
      end; simpl; eexists; reflexivity.
Qed.

Lemma expression_deblur_forms (cfg : pyval) (f : string) :
  expression cfg Deblur = Some f ->
  (exists rest, f = "convolution='" ++ rest) \/ (exists rest, f = "unsharp=" ++ rest).
Proof.
  unfold expression. cbn [builder].
  destruct (build_deblur cfg) as [[s|]|] eqn:Hb; try discriminate.
  destruct (build_deblur_forms cfg s Hb) as [->|[[rest ->]|[rest ->]]].
  - intros H. vm_compute in H. discriminate.
  - rewrite (normalise_prefix "convolution='" rest eq_refl). intros [= <-].
    left. eexists. reflexivity.
  - rewrite (normalise_prefix "unsharp=" rest eq_refl). intros [= <-].
    right. eexists. reflexivity.
Qed.

Lemma expression_no_leading_sep (cfg : pyval) (st : stage) (f : string) :
  st <> Custom -> expression cfg st = Some f -> leading_sep f = false.
Proof.
  intros Hst He.
  destruct (stage_prefix st) as [p|] eqn:Hp.
  - destruct (expression_prefix cfg st p f Hp He) as [rest ->].
    destruct st; cbn [stage_prefix] in Hp; try discriminate;
      injection Hp as <-; reflexivity.
  - destruct st; cbn [stage_prefix] in Hp; try discriminate; [|congruence].
    destruct (expression_deblur_forms cfg f He) as [[rest ->]|[rest ->]]; reflexivity.
Qed.

Lemma present_head (cfg : pyval) (outs : list (option string)) (f : string)
      (l : list string) :
  stage_outputs cfg = Ok outs -> present outs = f :: l ->
  exists st, expression cfg st = Some f.
Proof.
  intros Ho Hp. apply mapM_Forall2 in Ho.
  assert (Hin : In f (present outs)) by (rewrite Hp; now left).
  apply present_In in Hin as (o & Hin & Hn).
  destruct (Forall2_In_r _ _ _ _ Ho Hin) as (st & _ & Hb).
  exists st. unfold expression. now rewrite Hb.
Qed.

(** X14. An expression of a stage other than the custom filters always
    begins with the name of a filter ([convolution='] or [unsharp=] for
    deblur), so only the custom filters can give the chain a leading
    separator: a chain without custom filters never begins with a comma. *)
Theorem leading_sep_from_custom (cfg : pyval) (chain : string) :
  main cfg = Ok chain ->
  (forall f, expression cfg Deblur = Some f ->
             (exists rest, f = "convolution='" ++ rest)
             \/ (exists rest, f = "unsharp=" ++ rest))
  /\ (expression cfg Custom = None -> leading_sep chain = false).
Proof.
  intros Hm. split; [apply expression_deblur_forms|].
  intros Hc. apply main_stage_outputs in Hm as (outs & Ho & ->).
  destruct (present outs) as [|f l] eqn:Hp; [reflexivity|].
  destruct (present_head cfg outs f l Ho Hp) as [st He].
  assert (Hst : st <> Custom) by (intros ->; congruence).
  pose proof (expression_no_leading_sep cfg st f Hst He) as Hf.
  pose proof (present_good outs) as G. rewrite Hp in G.
  inversion G as [|? ? [Hne _] _]; subst.
  destruct (join_head "," f l) as [post ->].
  unfold leading_sep in *. rewrite starts_with_app. now destruct f.
Qed.

Lemma leading_sep_from_custom_witness :
  main cfg_blur_grain = Ok "boxblur=,3,noise=alls=4:allf=p"
  /\ leading_sep "boxblur=,3,noise=alls=4:allf=p" = false.
Proof.
  assert (H : main cfg_blur_grain = Ok "boxblur=,3,noise=alls=4:allf=p")
    by (vm_compute; reflexivity).
  split; [exact H|].
  apply (proj2 (leading_sep_from_custom _ _ H)). vm_compute. reflexivity.
Defined.
